(** * Strength check of welded branch-pipe joints (RD 10-249-98): [src/app.py]

    The development embeds the two parts of the program that carry its
    behaviour: the allowable-stress lookup [interpolate_stress] over the
    12Kh1MF table, and the eight-step derivation executed when the
    "calculate" button is pressed.

    The arithmetic of the source is IEEE-754 binary64 (Python [float] and
    [numpy.float64]).  The program text is written once over an arithmetic
    signature [Arith] and instantiated twice: at Rocq's primitive binary64
    floats, which is what the interpreter executes and where every property
    of steps 2-8 is stated, and at the real numbers extended with an
    undefined value, in which the interpolation of the library is described
    for the properties of the lookup. *)

From Stdlib Require Import ZArith QArith Reals Lra Lia Psatz List String Bool.
From Stdlib Require Import Floats.
Import ListNotations.

Set Implicit Arguments.

(** ** Python-level effects: exceptions *)

Inductive exn : Set :=
| KeyError            (* a missing dictionary key *)
| IndexError          (* a list index out of range *)
| ZeroDivisionError   (* [float / float] with a zero divisor *)
| LibraryError.       (* anything raised inside a library call *)

Inductive py (A : Type) : Type :=
| Return (a : A)
| Raise (e : exn).

Arguments Return {A} a.
Arguments Raise {A} e.

Definition bind {A B : Type} (m : py A) (k : A -> py B) : py B :=
  match m with
  | Return a => k a
  | Raise e => Raise e
  end.

Declare Scope py_scope.
Delimit Scope py_scope with py.
Notation "x <- m ;; k" := (bind m (fun x => k))
  (at level 61, m at next level, right associativity) : py_scope.
Notation "' pat <- m ;; k" := (bind m (fun x => match x with pat => k end))
  (at level 61, pat pattern, m at next level, right associativity) : py_scope.

(** [try: m  except: return h] with a bare [except]. *)
Definition try_except {A : Type} (m : py A) (h : A) : py A :=
  match m with
  | Return a => Return a
  | Raise _ => Return h
  end.

(** [l[i]] on a Python list. *)
Definition index {A : Type} (l : list A) (i : nat) : py A :=
  match nth_error l i with
  | Some a => Return a
  | None => Raise IndexError
  end.

(** [d[k]] on a Python dict, the dict kept as its list of items. *)
Definition getitem {V : Type} (d : list (Z * V)) (k : Z) : py V :=
  match find (fun kv => Z.eqb (fst kv) k) d with
  | Some kv => Return (snd kv)
  | None => Raise KeyError
  end.

Fixpoint foldM {A B : Type} (f : B -> A -> py B) (l : list A) (b : B) : py B :=
  match l with
  | [] => Return b
  | a :: l' => bind (f b a) (foldM f l')
  end.

Fixpoint enumerate_from {A : Type} (n : nat) (l : list A) : list (nat * A) :=
  match l with
  | [] => []
  | a :: l' => (n, a) :: enumerate_from (S n) l'
  end.

Definition enumerate {A : Type} (l : list A) : list (nat * A) :=
  enumerate_from 0 l.

(** ** The arithmetic signature *)

Class Arith (F : Type) : Type := {
  num_of_Z : Z -> F;            (* an [int] used where a float is expected *)
  num_of_Q : Q -> F;            (* a decimal literal *)
  num_add : F -> F -> F;
  num_sub : F -> F -> F;
  num_mul : F -> F -> F;
  num_div : F -> F -> F;        (* numpy division: never raises *)
  num_sqrt : F -> F;            (* [np.sqrt]: never raises *)
  num_eqb : F -> F -> bool;     (* [==] *)
  num_leb : F -> F -> bool;     (* [<=] *)
  num_isnan : F -> bool         (* [np.isnan] *)
}.

Declare Scope num_scope.
Delimit Scope num_scope with num.
Infix "+" := num_add : num_scope.
Infix "-" := num_sub : num_scope.
Infix "*" := num_mul : num_scope.
Infix "/" := num_div : num_scope.
Infix "==" := num_eqb (at level 70, no associativity) : num_scope.
Infix "<=?" := num_leb : num_scope.
Notation "x != y" := (negb (num_eqb x y)) (at level 70, no associativity) : num_scope.

(** Division of two Python floats raises on a zero divisor; as soon as one
    operand is a [numpy.float64] the quotient is computed by [num_div]. *)
Definition py_div {F : Type} `{Arith F} (x y : F) : py F :=
  if num_eqb y (num_of_Z 0) then Raise ZeroDivisionError else Return (num_div x y).

(** ** Reference data (lines 13-20 of the source)

    Temperatures are Python [int]s.  The keys of the dictionary are the
    floats [1e4 .. 4e5]; they are whole numbers and are kept as integers, in
    the order of the literal.  A missing entry is [None]. *)

Definition temperature_ranges : list Z :=
  [20; 250; 300; 350; 400; 420; 440; 450; 460; 480; 500; 510; 520; 530; 540;
   550; 560; 570; 580; 590; 600; 610; 620]%Z.

Definition stress_data_12x1mf : list (Z * list (option Z)) :=
  let o := @None Z in
  let v := @Some Z in
  [ (10000,
     [o; o; o; o; o; o; o; o; o; v 133; v 130; v 120; v 112; v 100; v 88;
      v 80; v 72; v 65; v 59; v 53; v 47; v 41; v 35]);
    (100000,
     [v 173; v 166; v 159; v 152; v 145; v 142; v 139; v 138; v 136; v 133;
      v 113; v 101; v 90; v 81; v 73; v 66; v 59; v 53; v 47; v 41; v 37;
      v 33; o]);
    (200000,
     [o; o; o; o; o; o; o; v 138; v 136; v 120; v 96; v 86; v 77; v 69; v 62;
      v 56; v 50; v 44; v 39; v 35; v 31; o; o]);
    (300000,
     [o; o; o; o; o; o; o; v 138; v 130; v 107; v 88; v 79; v 72; v 65; v 58;
      v 52; v 46; v 41; v 36; v 32; v 29; o; o]);
    (400000,
     [o; o; o; o; o; o; o; v 138; v 125; v 103; v 83; v 76; v 66; v 59; v 53;
      v 48; v 43; v 38; v 34; v 30; v 27; o; o]) ]%Z.

(** The literal list [[1e4, 1e5, 2e5, 3e5, 4e5]] of the inner loop. *)
Definition hours_axis : list Z := [10000; 100000; 200000; 300000; 400000]%Z.

(** The two module-level names the lookup reads. *)
Record table : Type := {
  tb_temperatures : list Z;
  tb_stress : list (Z * list (option Z))
}.

Definition table_12x1mf : table :=
  {| tb_temperatures := temperature_ranges; tb_stress := stress_data_12x1mf |}.

(** ** The nested loop of [interpolate_stress] (lines 29-37) *)

Definition cells : Type := (list (Z * Z) * list Z)%type.

Definition scan_hours (tb : table) (temp_idx : nat) (temp : Z)
    (acc : cells) (hours : Z) : py cells :=
  (row <- getitem (tb_stress tb) hours ;;
   stress <- index row temp_idx ;;
   Return match stress with
          | Some v => (fst acc ++ [(temp, hours)], snd acc ++ [v])
          | None => acc
          end)%py.

Definition scan_temperature (tb : table) (acc : cells) (it : nat * Z) : py cells :=
  foldM (scan_hours tb (fst it) (snd it)) hours_axis acc.

Definition collect (tb : table) : py cells :=
  foldM (scan_temperature tb) (enumerate (tb_temperatures tb)) ([], []).

(** ** Input and output records *)

Module Input.
Record t (F : Type) : Type := make {
  D_a : F;               (* outer diameter of the main pipe, mm *)
  s : F;                 (* wall thickness of the main pipe, mm *)
  d_a : F;               (* outer diameter of the branch, mm *)
  s_s : F;               (* wall thickness of the branch, mm *)
  p : F;                 (* pressure, MPa *)
  T : F;                 (* temperature, deg C *)
  operating_hours : Z;   (* hours in service so far *)
  planned_hours : Z;     (* planned further service, hours *)
  c : F                  (* corrosion allowance, mm *)
}.
End Input.

Module Result.
Record t (F : Type) : Type := make {
  sigma_allowable : F;
  h_s : F;
  s_os : F;
  f_s : F;
  D_m : F;
  z : F;
  phi_od : F;
  denominator : F;
  phi_oc : F;
  sigma : F;
  safety_factor : F;
  strength_ok : bool     (* [sigma <= sigma_allowable]: which banner is shown *)
}.
End Result.

(** What pressing the button ends in. *)
Inductive outcome (F : Type) : Type :=
| Stopped (message : string)     (* [st.error(message); st.stop()] *)
| Uncaught (e : exn)             (* an exception escapes the script *)
| Displayed (r : Result.t F).    (* all eight steps rendered *)

Arguments Stopped {F} message.
Arguments Uncaught {F} e.
Arguments Displayed {F} r.

Definition undeterminable_message : string :=
  "Невозможно определить допускаемое напряжение для заданных параметров".

(** ** The program over an arbitrary arithmetic *)

Section Program.
Context {F : Type} {AF : Arith F}.

(** [scipy.interpolate.griddata(points, values, [xi], method='linear')[0]]:
    a library call, taken as a parameter of the program. *)
Variable griddata : list (F * F) -> list F -> F * F -> py F.

Local Open Scope num_scope.

Definition to_point (tz : Z * Z) : F * F :=
  (num_of_Z (fst tz), num_of_Z (snd tz)).

Definition interpolate_stress_on (tb : table)
    (temperature operating_hours : F) : py (option F) :=
  (pv <- collect tb ;;
   let points := fst pv in
   let values := snd pv in
   match points with
   | [] => Return None
   | _ :: _ =>
       try_except
         (interpolated_value <-
            griddata (map to_point points) (map num_of_Z values)
                     (temperature, operating_hours) ;;
          Return (if num_isnan interpolated_value then None
                  else Some interpolated_value))
         None
   end)%py.

Definition interpolate_stress : F -> F -> py (option F) :=
  interpolate_stress_on table_12x1mf.

Definition total_hours (i : Input.t F) : Z :=
  (Input.operating_hours i + Input.planned_hours i)%Z.

(** Steps 2 to 8 (lines 92-143).

    The widgets hand over Python floats that are finite and not negative
    ([min_value=0.0]) and [sigma_allowable] is a Python float, so the
    quotient of step 3 is a division of two Python floats: it raises
    [ZeroDivisionError] on a zero divisor.  [np.sqrt] returns a
    [numpy.float64]; from there on [h_s], [f_s], [z], [phi_od] (for
    [d_a >= 0] the quotient [z] is never [-1.75], so the integer [0] of the
    [else] branch is not taken), [denominator], [phi_oc] and [sigma] are
    [numpy.float64], whose division answers an infinity or NaN, with a
    warning, instead of raising. *)
Definition compute (i : Input.t F) (sigma_allowable : F) : py (Result.t F) :=
  let D_a := Input.D_a i in
  let s := Input.s i in
  let d_a := Input.d_a i in
  let s_s := Input.s_s i in
  let p := Input.p i in
  let c := Input.c i in
  let h_s := num_sqrt (num_of_Q 1.25 * (d_a - s_s) * (s_s - c)) in
  let phi_temp := num_of_Q 1.0 in
  (s_os <- py_div (p * d_a) (num_of_Z 2 * sigma_allowable * phi_temp + p) ;;
   let f_s := num_of_Z 2 * h_s * ((s_s - c) - s_os) in
   let D_m := D_a - s in
   let z := d_a / num_sqrt (D_m * (s - c)) in
   let phi_od :=
     if (z + num_of_Q 1.75) != num_of_Z 0
     then num_of_Z 2 / (z + num_of_Q 1.75) else num_of_Z 0 in
   let sum_f := f_s in
   let denominator := num_of_Z 2 * (s - c) * num_sqrt (D_m * (s - c)) in
   let phi_oc :=
     if denominator != num_of_Z 0
     then phi_od * (num_of_Z 1 + sum_f / denominator) else phi_od in
   let sigma := p * (D_a - (s - c)) / (num_of_Z 2 * phi_oc * (s - c)) in
   let safety_factor :=
     if sigma != num_of_Z 0 then sigma_allowable / sigma else num_of_Z 0 in
   Return (Result.make sigma_allowable h_s s_os f_s D_m z phi_od
             denominator phi_oc sigma safety_factor
             (sigma <=? sigma_allowable)))%py.

(** The body of [if st.button(...)] (lines 78-143). *)
Definition run (i : Input.t F) : outcome F :=
  match interpolate_stress (Input.T i) (num_of_Z (total_hours i)) with
  | Raise e => Uncaught e
  | Return None => Stopped undeterminable_message
  | Return (Some sigma_allowable) =>
      match compute i sigma_allowable with
      | Raise e => Uncaught e
      | Return r => Displayed r
      end
  end.

End Program.

(** ** The binary64 instance: what the interpreter executes *)

Module Binary64.

(** [float(n)] for a Python [int]: the nearest binary64 value. *)
Definition of_Z (n : Z) : float :=
  SF2Prim (binary_normalize prec emax n 0 false).

(** A decimal literal [n/d]: the nearest binary64 value, obtained as the
    correctly rounded quotient of two integers that are themselves exact
    (numerator and denominator below [2^53], as for every literal here). *)
Definition of_Q (q : Q) : float :=
  PrimFloat.div (of_Z (Qnum q)) (of_Z (Zpos (Qden q))).

#[export] Instance arith : Arith float := {
  num_of_Z := of_Z;
  num_of_Q := of_Q;
  num_add := PrimFloat.add;
  num_sub := PrimFloat.sub;
  num_mul := PrimFloat.mul;
  num_div := PrimFloat.div;
  num_sqrt := PrimFloat.sqrt;
  num_eqb := PrimFloat.eqb;
  num_leb := PrimFloat.leb;
  num_isnan := PrimFloat.is_nan
}.

(** The rational number a finite float stands for. *)
Definition to_Q (x : float) : option Q :=
  match Prim2SF x with
  | S754_zero _ => Some 0%Q
  | S754_finite sg m e =>
      Some ((if sg then -(1) else 1) * inject_Z (Zpos m) * Qpower 2 e)%Q
  | S754_infinity _ => None
  | S754_nan => None
  end.

(** [x] is rendered as the decimal [n/100] by the format [:.2f] with which
    the script shows every length.  The conversion rounds the exact value of
    the float to the nearest hundredth, and a value exactly half way between
    two hundredths to the even one: [n/100 - 0.005 < x < n/100 + 0.005], or
    [x] is one of the two bounds and [n] is even. *)
Definition shown_as_2dp (x : float) (n : Z) : bool :=
  match to_Q x with
  | Some q =>
      let lower := (2 * n - 1) # 200 in
      let upper := (2 * n + 1) # 200 in
      if Z.even n
      then Qle_bool lower q && Qle_bool q upper
      else negb (Qle_bool q lower) && negb (Qle_bool upper q)
  | None => false
  end.

(** The default values of the input widgets, which are also the worked
    example of the specification. *)
Definition spec_example : Input.t float :=
  Input.make (of_Q 325.0) (of_Q 38.0) (of_Q 93.0) (of_Q 21.5) (of_Q 14.0)
             (of_Q 545.0) 219142 50000 (of_Q 0.0).

(** A joint whose branch wall is thinner than the pressure requires. *)
Definition thin_branch : Input.t float :=
  Input.make (of_Q 325.0) (of_Q 38.0) (of_Q 90.0) (of_Q 10.0) (of_Q 20.0)
             (of_Q 545.0) 219142 50000 (of_Q 6.0).


(** A joint without load whose dimensions, all positive and ordered as the
    formulas ask ([c < s_s < d_a], [c < s < D_a]), are so large that the
    products of steps 2 and 5 overflow. *)
Definition oversized : Input.t float :=
  Input.make (of_Q (10 ^ 200)) (of_Q (10 ^ 199)) (of_Q (10 ^ 199))
             (of_Q (10 ^ 198)) (of_Q 0.0) (of_Q 545.0) 219142 50000
             (of_Q 0.0).


(** The radicand of step 2. *)
Definition radicand (i : Input.t float) : float :=
  (of_Q 1.25 * (Input.d_a i - Input.s_s i) * (Input.s_s i - Input.c i))%float.

(** The divisors of steps 3 and 7. *)
Definition step3_divisor (i : Input.t float) (sigma_allowable : float) : float :=
  (of_Z 2 * sigma_allowable * of_Q 1.0 + Input.p i)%float.

Definition step7_divisor (i : Input.t float) (phi_oc : float) : float :=
  (of_Z 2 * phi_oc * (Input.s i - Input.c i))%float.

Definition is_zero_or_nan (x : float) : bool :=
  PrimFloat.eqb x (of_Z 0) || PrimFloat.is_nan x.

End Binary64.

(** ** The exact instance: real numbers with an undefined value

    Every operation is the real one where it is defined; a negative radicand,
    a zero divisor and an undefined operand give [XNaN].  There is no
    rounding, no overflow and no infinity: the instance serves the lookup,
    whose own code only converts the integers of the table and tests the
    answer of the library for NaN.  Steps 2-8 are never examined in it. *)

Module Exact.

Inductive xreal : Type :=
| XNaN
| XR (r : R).

Definition lift2 (f : R -> R -> R) (x y : xreal) : xreal :=
  match x, y with
  | XR a, XR b => XR (f a b)
  | _, _ => XNaN
  end.

Definition xdiv (x y : xreal) : xreal :=
  match x, y with
  | XR a, XR b => if Req_dec_T b 0 then XNaN else XR (a / b)
  | _, _ => XNaN
  end.

Definition xsqrt (x : xreal) : xreal :=
  match x with
  | XR a => if Rlt_dec a 0 then XNaN else XR (R_sqrt.sqrt a)
  | XNaN => XNaN
  end.

Definition xeqb (x y : xreal) : bool :=
  match x, y with
  | XR a, XR b => if Req_dec_T a b then true else false
  | _, _ => false
  end.

Definition xleb (x y : xreal) : bool :=
  match x, y with
  | XR a, XR b => if Rle_dec a b then true else false
  | _, _ => false
  end.

Definition xisnan (x : xreal) : bool :=
  match x with
  | XNaN => true
  | XR _ => false
  end.

#[export] Instance arith : Arith xreal := {
  num_of_Z := fun n => XR (IZR n);
  num_of_Q := fun q => XR (Q2R q);
  num_add := lift2 Rplus;
  num_sub := lift2 Rminus;
  num_mul := lift2 Rmult;
  num_div := xdiv;
  num_sqrt := xsqrt;
  num_eqb := xeqb;
  num_leb := xleb;
  num_isnan := xisnan
}.

(** *** Plane geometry of the sample points *)

Definition point : Type := (R * R)%type.

Local Open Scope R_scope.

(** The convex hull of a list of points: the least set that contains them
    and is closed under taking a point of a segment. *)
Inductive in_hull (pts : list point) : point -> Prop :=
| hull_sample : forall a, In a pts -> in_hull pts a
| hull_segment : forall a b t,
    in_hull pts a -> in_hull pts b -> 0 <= t <= 1 ->
    in_hull pts (t * fst a + (1 - t) * fst b, t * snd a + (1 - t) * snd b).

(** Twice the signed area of the triangle [a b r]. *)
Definition det (a b r : point) : R :=
  (fst a - fst r) * (snd b - snd r) - (fst b - fst r) * (snd a - snd r).

(** Barycentric coordinates of [q] in the triangle [a b r]; undefined for a
    flat triangle. *)
Definition barycentric (a b r q : point) : option (R * R * R) :=
  let d := det a b r in
  if Req_dec_T d 0 then None
  else
    let c0 := ((fst q - fst r) * (snd b - snd r)
               - (fst b - fst r) * (snd q - snd r)) / d in
    let c1 := ((fst a - fst r) * (snd q - snd r)
               - (fst q - fst r) * (snd a - snd r)) / d in
    Some (c0, c1, 1 - c0 - c1).

Definition nonnegb (x : R) : bool := if Rle_dec 0 x then true else false.

Definition simplex : Type := (nat * nat * nat)%type.

(** The coordinates of [q] in the simplex [sx] of [pts] when [q] lies in
    that (closed, non-degenerate) triangle. *)
Definition locate (pts : list point) (q : point) (sx : simplex)
    : option (R * R * R) :=
  let '(i, j, k) := sx in
  match nth_error pts i, nth_error pts j, nth_error pts k with
  | Some a, Some b, Some r =>
      match barycentric a b r q with
      | Some (c0, c1, c2) =>
          if nonnegb c0 && nonnegb c1 && nonnegb c2
          then Some (c0, c1, c2) else None
      | None => None
      end
  | _, _, _ => None
  end.

Fixpoint find_simplex (pts : list point) (q : point) (sxs : list simplex)
    : option (simplex * (R * R * R)) :=
  match sxs with
  | [] => None
  | sx :: rest =>
      match locate pts q sx with
      | Some cs => Some (sx, cs)
      | None => find_simplex pts q rest
      end
  end.

Definition real_of (x : xreal) : option R :=
  match x with
  | XR r => Some r
  | XNaN => None
  end.

Fixpoint reals_of (xs : list xreal) : option (list R) :=
  match xs with
  | [] => Some []
  | x :: rest =>
      match real_of x, reals_of rest with
      | Some r, Some rs => Some (r :: rs)
      | _, _ => None
      end
  end.

Definition point_of (xy : xreal * xreal) : option point :=
  match real_of (fst xy), real_of (snd xy) with
  | Some x, Some y => Some (x, y)
  | _, _ => None
  end.

Fixpoint points_of (xys : list (xreal * xreal)) : option (list point) :=
  match xys with
  | [] => Some []
  | xy :: rest =>
      match point_of xy, points_of rest with
      | Some q, Some qs => Some (q :: qs)
      | _, _ => None
      end
  end.

Section Linear.

(** The tessellation of the sample points into triangles (the Delaunay
    triangulation computed by the library); [None] when the library
    rejects the point set. *)
Variable delaunay : list point -> option (list simplex).

(** Modelled from the spec: [scipy.interpolate.griddata] is a library
    function and is not under src/.  Section 4.1 describes the call as
    piecewise-linear interpolation over a triangulation of the scattered
    (temperature, duration) points, with no value outside their convex
    hull and with internal numerical failures raised to the caller.  The
    interpolant is computed here in exact arithmetic: the value at [q]
    is the barycentric combination of the values at the vertices of the
    first simplex that contains [q], and NaN when no simplex does. *)
Definition griddata_linear (points : list (xreal * xreal))
    (values : list xreal) (xi : xreal * xreal) : py xreal :=
  match points_of points, reals_of values, point_of xi with
  | Some pts, Some vals, Some q =>
      match delaunay pts with
      | None => Raise LibraryError
      | Some simplices =>
          match find_simplex pts q simplices with
          | None => Return XNaN
          | Some ((i, j, k), (c0, c1, c2)) =>
              (va <- index vals i ;;
               vb <- index vals j ;;
               vc <- index vals k ;;
               Return (XR (c0 * va + c1 * vb + c2 * vc)))%py
          end
      end
  | _, _, _ => Raise LibraryError
  end.

End Linear.

(** *** Tessellations of the sample points *)

Definition vertex_of (m : nat) (sx : simplex) : Prop :=
  let '(i, j, k) := sx in m = i \/ m = j \/ m = k.

(** What the interpolation needs of the triangulation of the samples: its
    triangles are not flat, every sample is a vertex of one of them, and a
    triangle contains no sample besides its own vertices. *)
Record tessellates (pts : list point) (sxs : list simplex) : Prop := {
  tess_nondegenerate :
    forall i j k, In (i, j, k) sxs ->
      exists a b r,
        nth_error pts i = Some a /\ nth_error pts j = Some b /\
        nth_error pts k = Some r /\ det a b r <> 0;
  tess_samples_are_vertices :
    forall m, (m < List.length pts)%nat -> exists sx, In sx sxs /\ vertex_of m sx;
  tess_no_sample_inside :
    forall sx m q, In sx sxs -> nth_error pts m = Some q ->
      locate pts q sx <> None -> vertex_of m sx
}.

(** Sample points have integer coordinates. *)
Definition inj (tz : Z * Z) : point := (IZR (fst tz), IZR (snd tz)).

(** The same notions on integer coordinates, where they are decidable by
    evaluation. *)
Definition detZ (a b r : Z * Z) : Z :=
  ((fst a - fst r) * (snd b - snd r) - (fst b - fst r) * (snd a - snd r))%Z.

Definition num0 (b r q : Z * Z) : Z :=
  ((fst q - fst r) * (snd b - snd r) - (fst b - fst r) * (snd q - snd r))%Z.

Definition num1 (a r q : Z * Z) : Z :=
  ((fst a - fst r) * (snd q - snd r) - (fst q - fst r) * (snd a - snd r))%Z.

Definition insideZb (a b r q : Z * Z) : bool :=
  let d := detZ a b r in
  let n0 := num0 b r q in
  let n1 := num1 a r q in
  (negb (d =? 0) && (0 <=? n0 * d) && (0 <=? n1 * d)
   && (0 <=? (d - n0 - n1) * d))%Z.

Definition vertexb (m : nat) (sx : simplex) : bool :=
  let '(i, j, k) := sx in
  (Nat.eqb m i || Nat.eqb m j || Nat.eqb m k)%bool.

Definition simplex_okb (zpts : list (Z * Z)) (sx : simplex) : bool :=
  let '(i, j, k) := sx in
  match nth_error zpts i, nth_error zpts j, nth_error zpts k with
  | Some a, Some b, Some r =>
      negb (detZ a b r =? 0)%Z
      && forallb (fun mq => vertexb (fst mq) sx || negb (insideZb a b r (snd mq)))
                 (enumerate zpts)
  | _, _, _ => false
  end.

Definition tessellates_Zb (zpts : list (Z * Z)) (sxs : list simplex) : bool :=
  forallb (simplex_okb zpts) sxs
  && forallb (fun m => existsb (vertexb m) sxs) (seq 0 (List.length zpts)).

(** A triangulation of the 78 present cells of the table (vertices are
    positions in the list of points built by [collect]). *)
Definition sample_tessellation : list simplex :=
  [
   (0, 1, 8); (1, 2, 8); (2, 3, 8); (3, 4, 8); (4, 5, 8); (5, 6, 8);
   (6, 7, 8); (0, 8, 9); (0, 9, 10); (8, 7, 11); (9, 8, 11); (10, 9, 11);
   (10, 11, 12); (10, 12, 13); (10, 13, 14); (1, 0, 15); (2, 1, 15);
   (3, 2, 15); (4, 3, 15); (5, 4, 15); (6, 5, 15); (7, 6, 15); (11, 7, 15);
   (12, 11, 15); (13, 12, 15); (14, 13, 15); (14, 15, 16); (14, 16, 17);
   (14, 17, 18); (14, 18, 19); (16, 15, 20); (17, 16, 20); (18, 17, 20);
   (19, 18, 20); (19, 20, 21); (19, 21, 22); (19, 22, 23); (19, 23, 24);
   (21, 20, 25); (22, 21, 25); (23, 22, 25); (24, 23, 25); (24, 25, 26);
   (24, 26, 27); (24, 27, 28); (24, 28, 29); (26, 25, 30); (27, 26, 30);
   (28, 27, 30); (29, 28, 30); (29, 30, 31); (29, 31, 32); (29, 32, 33);
   (29, 33, 34); (31, 30, 35); (32, 31, 35); (33, 32, 35); (34, 33, 35);
   (34, 35, 36); (34, 36, 37); (34, 37, 38); (34, 38, 39); (36, 35, 40);
   (37, 36, 40); (38, 37, 40); (39, 38, 40); (39, 40, 41); (39, 41, 42);
   (39, 42, 43); (39, 43, 44); (41, 40, 45); (42, 41, 45); (43, 42, 45);
   (44, 43, 45); (44, 45, 46); (44, 46, 47); (44, 47, 48); (44, 48, 49);
   (46, 45, 50); (47, 46, 50); (48, 47, 50); (49, 48, 50); (49, 50, 51);
   (49, 51, 52); (49, 52, 53); (49, 53, 54); (51, 50, 55); (52, 51, 55);
   (53, 52, 55); (54, 53, 55); (54, 55, 56); (54, 56, 57); (54, 57, 58);
   (54, 58, 59); (56, 55, 60); (57, 56, 60); (58, 57, 60); (59, 58, 60);
   (59, 60, 61); (59, 61, 62); (59, 62, 63); (59, 63, 64); (61, 60, 65);
   (62, 61, 65); (63, 62, 65); (64, 63, 65); (64, 65, 66); (64, 66, 67);
   (64, 67, 68); (64, 68, 69); (66, 65, 70); (67, 66, 70); (68, 67, 70);
   (69, 68, 70); (69, 70, 71); (69, 71, 72); (69, 72, 73); (69, 73, 74);
   (71, 70, 75); (72, 71, 75); (73, 72, 75); (74, 73, 75); (74, 75, 76);
   (76, 75, 77); (74, 76, 77)
  ]%nat.

Definition sample_delaunay (pts : list point) : option (list simplex) :=
  Some sample_tessellation.

End Exact.

(** ** Notions used by the statements *)

(** The present cells of the 12Kh1MF table in the order the loop meets them. *)
Definition present_cells : cells :=
  Eval vm_compute in
    match collect table_12x1mf with
    | Return pv => pv
    | Raise _ => ([], [])
    end.

Definition present_points : list (Z * Z) := fst present_cells.
Definition present_values : list Z := snd present_cells.

(** [(temp, hours)] is a cell of the table and holds the value [v]. *)
Definition tabulated (tb : table) (temp hours v : Z) : Prop :=
  exists temp_idx row,
    nth_error (tb_temperatures tb) temp_idx = Some temp /\
    In hours hours_axis /\
    getitem (tb_stress tb) hours = Return row /\
    nth_error row temp_idx = Some (Some v).

Definition list_min (l : list Z) : Z :=
  match l with
  | [] => 0%Z
  | x :: rest => fold_left Z.min rest x
  end.

Definition list_max (l : list Z) : Z :=
  match l with
  | [] => 0%Z
  | x :: rest => fold_left Z.max rest x
  end.

Definition set_c {F : Type} (i : Input.t F) (c' : F) : Input.t F :=
  Input.make (Input.D_a i) (Input.s i) (Input.d_a i) (Input.s_s i) (Input.p i)
             (Input.T i) (Input.operating_hours i) (Input.planned_hours i) c'.

Definition set_p {F : Type} (i : Input.t F) (p' : F) : Input.t F :=
  Input.make (Input.D_a i) (Input.s i) (Input.d_a i) (Input.s_s i) p'
             (Input.T i) (Input.operating_hours i) (Input.planned_hours i)
             (Input.c i).

(** An outcome that reports a failure other than the undeterminable
    allowable stress. *)
Definition reports_domain_failure {F : Type} (o : outcome F) : Prop :=
  exists message, o = Stopped message /\ message <> undeterminable_message.

(** A stand-in for the library call that answers a fixed value. *)
Definition griddata_returning {F : Type} (v : F)
    : list (F * F) -> list F -> F * F -> py F :=
  fun _ _ _ => Return v.


(** A table the loop of [interpolate_stress] can scan: every duration of
    the loop is a key of the dictionary and the row it maps to reaches
    every position of the temperature list. *)
Definition well_formed (tb : table) : Prop :=
  forall temp_idx temp hours,
    nth_error (tb_temperatures tb) temp_idx = Some temp ->
    In hours hours_axis ->
    exists row cell,
      getitem (tb_stress tb) hours = Return row /\
      nth_error row temp_idx = Some cell.

(** The status column of the summary table (lines 147-155):
    [['-', 'В норме' if sigma <= sigma_allowable else 'Превышено', '-',
      'В норме' if safety_factor >= 1.0 else 'Недостаточный']].
    The test [safety_factor >= 1.0] is the comparison [1.0 <= safety_factor]. *)
Definition status_column {F : Type} {AF : Arith F} (r : Result.t F)
    : list string :=
  [ "-";
    if num_leb (Result.sigma r) (Result.sigma_allowable r)
    then "В норме" else "Превышено";
    "-";
    if num_leb (num_of_Q 1.0) (Result.safety_factor r)
    then "В норме" else "Недостаточный" ]%string.

(** * Properties *)

(** ** The lookup and the pipeline over any arithmetic *)

Section ProgramFacts.
Context {F : Type} {AF : Arith F}.
Variable griddata : list (F * F) -> list F -> F * F -> py F.

Local Open Scope num_scope.

Lemma interpolate_no_points (tb : table) (pv : cells) (t h : F) :
  collect tb = Return pv -> fst pv = [] ->
  interpolate_stress_on griddata tb t h = Return None.
Proof.
  intros Hc Hp. unfold interpolate_stress_on. rewrite Hc. simpl.
  now rewrite Hp.
Qed.

Lemma interpolate_some_points (tb : table) (pv : cells) (t h : F) :
  collect tb = Return pv -> fst pv <> [] ->
  interpolate_stress_on griddata tb t h =
  Return match griddata (map to_point (fst pv)) (map num_of_Z (snd pv)) (t, h) with
         | Return v => if num_isnan v then None else Some v
         | Raise _ => None
         end.
Proof.
  intros Hc Hp. unfold interpolate_stress_on. rewrite Hc. simpl.
  destruct (fst pv) as [|q l] eqn:E; [congruence|].
  now destruct (griddata _ _ _).
Qed.

Lemma collect_12x1mf : collect table_12x1mf = Return present_cells.
Proof. vm_compute. reflexivity. Qed.

Lemma interpolate_stress_12x1mf (t h : F) :
  interpolate_stress griddata t h =
  Return match griddata (map to_point present_points)
                        (map num_of_Z present_values) (t, h) with
         | Return v => if num_isnan v then None else Some v
         | Raise _ => None
         end.
Proof.
  unfold interpolate_stress.
  rewrite (@interpolate_some_points _ _ t h collect_12x1mf); [reflexivity|].
  discriminate.
Qed.

(** The lookup over the source's table never lets an exception escape. *)
Lemma interpolate_stress_returns (t h : F) :
  exists o, interpolate_stress griddata t h = Return o.
Proof. rewrite interpolate_stress_12x1mf. eauto. Qed.

(** A displayed result comes from steps 2-8 run on the looked-up stress. *)
Lemma run_displayed (i : Input.t F) (r : Result.t F) :
  run griddata i = Displayed r ->
  exists sigma_allowable,
    interpolate_stress griddata (Input.T i) (num_of_Z (total_hours i))
      = Return (Some sigma_allowable) /\
    compute i sigma_allowable = Return r.
Proof.
  unfold run. intros H.
  destruct (interpolate_stress _ _ _) as [[sa|]|e]; try discriminate.
  exists sa. split; [reflexivity|].
  destruct (compute i sa); congruence.
Qed.

Lemma run_of_compute (i : Input.t F) (sa : F) :
  interpolate_stress griddata (Input.T i) (num_of_Z (total_hours i))
    = Return (Some sa) ->
  run griddata i =
  match compute i sa with Raise e => Uncaught e | Return r => Displayed r end.
Proof. unfold run. now intros ->. Qed.

(** What [compute] stores in each field of its result. *)
Lemma compute_fields (i : Input.t F) (sa : F) (r : Result.t F) :
  compute i sa = Return r ->
  let s_c := Input.s i - Input.c i in
  Result.sigma_allowable r = sa /\
  Result.h_s r =
    num_sqrt (num_of_Q 1.25 * (Input.d_a i - Input.s_s i)
              * (Input.s_s i - Input.c i)) /\
  Result.s_os r =
    Input.p i * Input.d_a i
    / (num_of_Z 2 * sa * num_of_Q 1.0 + Input.p i) /\
  Result.f_s r =
    num_of_Z 2 * Result.h_s r
    * ((Input.s_s i - Input.c i) - Result.s_os r) /\
  Result.D_m r = Input.D_a i - Input.s i /\
  Result.z r = Input.d_a i / num_sqrt (Result.D_m r * s_c) /\
  Result.phi_od r =
    (if (Result.z r + num_of_Q 1.75) != num_of_Z 0
     then num_of_Z 2 / (Result.z r + num_of_Q 1.75) else num_of_Z 0) /\
  Result.denominator r = num_of_Z 2 * s_c * num_sqrt (Result.D_m r * s_c) /\
  Result.phi_oc r =
    (if Result.denominator r != num_of_Z 0
     then Result.phi_od r * (num_of_Z 1 + Result.f_s r / Result.denominator r)
     else Result.phi_od r) /\
  Result.sigma r =
    Input.p i * (Input.D_a i - s_c) / (num_of_Z 2 * Result.phi_oc r * s_c) /\
  Result.safety_factor r =
    (if Result.sigma r != num_of_Z 0 then sa / Result.sigma r else num_of_Z 0) /\
  Result.strength_ok r = (Result.sigma r <=? sa).
Proof.
  unfold compute, py_div, bind. intros H.
  destruct (num_eqb _ _); [discriminate|].
  injection H as <-. cbn. repeat split; reflexivity.
Qed.

(** Step 3 is the only place where an exception can start. *)
Lemma compute_cases (i : Input.t F) (sa : F) :
  ((num_of_Z 2 * sa * num_of_Q 1.0 + Input.p i == num_of_Z 0) = true /\
   compute i sa = Raise ZeroDivisionError) \/
  ((num_of_Z 2 * sa * num_of_Q 1.0 + Input.p i == num_of_Z 0) = false /\
   exists r, compute i sa = Return r).
Proof.
  unfold compute, py_div, bind.
  destruct (num_eqb _ _); [left|right]; split; eauto.
Qed.

Lemma run_never_reports_domain_failure (i : Input.t F) :
  ~ reports_domain_failure (run griddata i).
Proof.
  intros [m [H Hm]]. unfold run in H.
  destruct (interpolate_stress _ _ _) as [[sa|]|e]; try discriminate.
  - destruct (compute i sa); discriminate.
  - congruence.
Qed.

End ProgramFacts.

(** ** IEEE special values in the binary64 instance *)

Section Binary64Facts.
Import Binary64.
Local Open Scope float_scope.

Lemma SFeqb_irrefl_nan (x : spec_float) : SFeqb x x = false -> x = S754_nan.
Proof.
  unfold SFeqb.
  destruct x as [sg|sg| |sg m e]; simpl; intros H; try reflexivity;
    try discriminate H; destruct sg; try discriminate H;
    rewrite Z.compare_refl in H;
    change (PosDef.Pos.compare_cont Eq m m) with (Pos.compare m m) in H;
    rewrite Pos.compare_refl in H; discriminate H.
Qed.

Lemma is_nan_Prim2SF (x : float) :
  PrimFloat.is_nan x = true <-> Prim2SF x = S754_nan.
Proof.
  unfold PrimFloat.is_nan. rewrite eqb_spec. split.
  - intros H. apply SFeqb_irrefl_nan. now destruct (SFeqb _ _).
  - intros ->. reflexivity.
Qed.

Lemma Prim2SF_zero : Prim2SF (of_Z 0) = S754_zero false.
Proof. vm_compute. reflexivity. Qed.

Lemma eqb_zero_Prim2SF (x : float) :
  PrimFloat.eqb x (of_Z 0) = true <-> exists sg, Prim2SF x = S754_zero sg.
Proof.
  rewrite eqb_spec, Prim2SF_zero. unfold SFeqb. split.
  - destruct (Prim2SF x) as [sg|sg| |sg m e]; simpl; intros H; eauto;
      try discriminate H; destruct sg; discriminate H.
  - intros [sg ->]. reflexivity.
Qed.

(** A negative radicand: [np.sqrt] answers NaN. *)
Lemma sqrt_negative_is_nan (x : float) :
  PrimFloat.ltb x (of_Z 0) = true -> PrimFloat.is_nan (PrimFloat.sqrt x) = true.
Proof.
  rewrite ltb_spec, Prim2SF_zero, is_nan_Prim2SF, sqrt_spec.
  unfold SFltb, SF64sqrt.
  destruct (Prim2SF x) as [sg|sg| |sg m e]; simpl; try discriminate;
    destruct sg; try discriminate; reflexivity.
Qed.

Lemma mul_nan_r (x y : float) :
  PrimFloat.is_nan y = true -> PrimFloat.is_nan (x * y) = true.
Proof.
  rewrite !is_nan_Prim2SF, mul_spec. intros ->. unfold SF64mul.
  now destruct (Prim2SF x).
Qed.

Lemma mul_nan_l (x y : float) :
  PrimFloat.is_nan x = true -> PrimFloat.is_nan (x * y) = true.
Proof.
  rewrite !is_nan_Prim2SF, mul_spec. intros ->. reflexivity.
Qed.

Lemma div_nan_r (x y : float) :
  PrimFloat.is_nan y = true -> PrimFloat.is_nan (x / y) = true.
Proof.
  rewrite !is_nan_Prim2SF, div_spec. intros ->. unfold SF64div.
  now destruct (Prim2SF x).
Qed.

End Binary64Facts.

Section Binary64Finite.
Import Binary64.
Local Open Scope float_scope.

Lemma is_finite_Prim2SF (x : float) :
  PrimFloat.is_finite x = true ->
  (exists sg, Prim2SF x = S754_zero sg) \/
  (exists sg m e, Prim2SF x = S754_finite sg m e).
Proof.
  unfold PrimFloat.is_finite, PrimFloat.is_infinity.
  rewrite negb_true_iff, orb_false_iff. intros [Hn Hi].
  destruct (Prim2SF x) as [sg|sg| |sg m e] eqn:E; eauto.
  - rewrite eqb_spec, abs_spec, E in Hi. vm_compute in Hi. discriminate.
  - apply is_nan_Prim2SF in E. congruence.
Qed.

End Binary64Finite.

(** ** Rounding never invents NaN *)

Section Binary64Rounding.
Import Binary64.
Local Open Scope Z_scope.

Lemma shr_1_nonneg (mrs : shr_record) : 0 <= shr_m mrs -> 0 <= shr_m (shr_1 mrs).
Proof.
  destruct mrs as [m r s]. simpl. destruct m as [|[p|p|]|p]; simpl; lia.
Qed.

Lemma iter_shr_1_nonneg (p : positive) (mrs : shr_record) :
  0 <= shr_m mrs -> 0 <= shr_m (iter_pos shr_1 p mrs).
Proof.
  revert mrs. induction p as [p IH|p IH|]; intros mrs H; simpl.
  - apply IH, IH, shr_1_nonneg, H.
  - apply IH, IH, H.
  - apply shr_1_nonneg, H.
Qed.

Lemma shr_fexp_nonneg (m e : Z) (l : location) :
  0 <= m -> 0 <= shr_m (fst (shr_fexp prec emax m e l)).
Proof.
  intros H. unfold shr_fexp, shr.
  assert (H0 : 0 <= shr_m (shr_record_of_loc m l))
    by (destruct l as [|[ | | ]]; exact H).
  destruct (_ - e) as [|p|p]; simpl; [exact H0| |exact H0].
  apply iter_shr_1_nonneg, H0.
Qed.

Lemma round_nearest_even_nonneg (m : Z) (l : location) :
  0 <= m -> 0 <= round_nearest_even m l.
Proof.
  intros H. unfold round_nearest_even.
  destruct l as [|[ | | ]]; try destruct (Z.even m); lia.
Qed.

(** Rounding a non-negative mantissa never answers NaN. *)
Lemma binary_round_aux_not_nan (sx : bool) (m e : Z) (l : location) :
  0 <= m -> binary_round_aux prec emax sx m e l <> S754_nan.
Proof.
  intros H. unfold binary_round_aux.
  pose proof (@shr_fexp_nonneg m e l H) as H1.
  destruct (shr_fexp prec emax m e l) as [mrs' e']. simpl in H1.
  pose proof (@shr_fexp_nonneg _ e' loc_Exact
                (@round_nearest_even_nonneg _ (loc_of_shr_record mrs') H1))
    as H2.
  destruct (shr_fexp prec emax _ e' loc_Exact) as [mrs'' e'']. simpl in H2.
  destruct (shr_m mrs'') as [|p|p]; [discriminate| |lia].
  destruct (e'' <=? emax - prec); discriminate.
Qed.


Local Open Scope float_scope.

Lemma mul_finite_l_not_nan (x y : float) (sx : bool) (mx : positive) (ex : Z) :
  Prim2SF x = S754_finite sx mx ex -> PrimFloat.is_nan y = false ->
  PrimFloat.is_nan (x * y) = false.
Proof.
  intros Hx Hy. destruct (PrimFloat.is_nan (x * y)) eqn:N; [|reflexivity].
  exfalso. apply is_nan_Prim2SF in N. rewrite mul_spec, Hx in N.
  destruct (Prim2SF y) as [sy|sy| |sy my ey] eqn:E; try discriminate N.
  - apply is_nan_Prim2SF in E. congruence.
  - revert N. apply binary_round_aux_not_nan. apply Pos2Z.is_nonneg.
Qed.

Lemma mul_finite_r_not_nan (x y : float) (sy : bool) (my : positive) (ey : Z) :
  PrimFloat.is_nan x = false -> Prim2SF y = S754_finite sy my ey ->
  PrimFloat.is_nan (x * y) = false.
Proof.
  intros Hx Hy. destruct (PrimFloat.is_nan (x * y)) eqn:N; [|reflexivity].
  exfalso. apply is_nan_Prim2SF in N. rewrite mul_spec, Hy in N.
  destruct (Prim2SF x) as [sx|sx| |sx mx ex] eqn:E; try discriminate N.
  - apply is_nan_Prim2SF in E. congruence.
  - revert N. apply binary_round_aux_not_nan. apply Pos2Z.is_nonneg.
Qed.

Lemma add_zero_r_not_nan (x z : float) :
  PrimFloat.is_nan x = false -> PrimFloat.eqb z (of_Z 0) = true ->
  PrimFloat.is_nan (x + z) = false.
Proof.
  intros Hx Hz. apply eqb_zero_Prim2SF in Hz as [sz Hz].
  destruct (PrimFloat.is_nan (x + z)) eqn:N; [|reflexivity].
  exfalso. apply is_nan_Prim2SF in N. rewrite add_spec, Hz in N.
  destruct (Prim2SF x) as [sx|sx| |sx mx ex] eqn:E; try discriminate N.
  - destruct sx, sz; discriminate N.
  - apply is_nan_Prim2SF in E. congruence.
Qed.

(** With [p == 0] the divisor of step 3 is NaN only if the allowable stress
    is. *)
Lemma step3_divisor_not_nan (i : Input.t float) (sa : float) :
  PrimFloat.eqb (Input.p i) (of_Z 0) = true -> PrimFloat.is_nan sa = false ->
  PrimFloat.is_nan (step3_divisor i sa) = false.
Proof.
  intros Hp Hsa. unfold step3_divisor.
  apply add_zero_r_not_nan; [|exact Hp].
  apply mul_finite_r_not_nan
    with (sy := false) (my := 4503599627370496%positive) (ey := (-52)%Z);
    [|vm_compute; reflexivity].
  apply mul_finite_l_not_nan
    with (sx := false) (mx := 4503599627370496%positive) (ex := (-51)%Z);
    [vm_compute; reflexivity|exact Hsa].
Qed.


Lemma is_finite_false_Prim2SF (x : float) :
  PrimFloat.is_finite x = false ->
  Prim2SF x = S754_nan \/ exists sg, Prim2SF x = S754_infinity sg.
Proof.
  intros H. destruct (Prim2SF x) as [sg|sg| |sg m e] eqn:E; eauto; exfalso.
  - assert (F : PrimFloat.is_finite x = true); [|congruence].
    unfold PrimFloat.is_finite, PrimFloat.is_infinity.
    rewrite negb_true_iff, orb_false_iff. split.
    + destruct (PrimFloat.is_nan x) eqn:N; [|reflexivity].
      apply is_nan_Prim2SF in N. congruence.
    + rewrite eqb_spec, abs_spec, E. vm_compute. reflexivity.
  - assert (F : PrimFloat.is_finite x = true); [|congruence].
    unfold PrimFloat.is_finite, PrimFloat.is_infinity.
    rewrite negb_true_iff, orb_false_iff. split.
    + destruct (PrimFloat.is_nan x) eqn:N; [|reflexivity].
      apply is_nan_Prim2SF in N. congruence.
    + rewrite eqb_spec, abs_spec, E. vm_compute. reflexivity.
Qed.

Lemma not_zero_or_nan_Prim2SF (d : float) :
  is_zero_or_nan d = false ->
  (exists sg, Prim2SF d = S754_infinity sg) \/
  (exists sg m e, Prim2SF d = S754_finite sg m e).
Proof.
  unfold is_zero_or_nan. rewrite orb_false_iff. intros [Hz Hn].
  destruct (Prim2SF d) as [sg|sg| |sg m e] eqn:E; eauto; exfalso.
  - assert (PrimFloat.eqb d (of_Z 0) = true)
      by (apply eqb_zero_Prim2SF; eauto). congruence.
  - apply is_nan_Prim2SF in E. congruence.
Qed.

Lemma zero_or_nan_Prim2SF (d : float) :
  is_zero_or_nan d = true ->
  (exists sg, Prim2SF d = S754_zero sg) \/ Prim2SF d = S754_nan.
Proof.
  unfold is_zero_or_nan. rewrite orb_true_iff. intros [H|H].
  - left. now apply eqb_zero_Prim2SF.
  - right. now apply is_nan_Prim2SF.
Qed.

(** The quotient [z * x / d] for [z == 0]: a zero when [x] is finite and [d]
    is neither a zero nor NaN, and NaN in every other case. *)
Lemma zero_quotient_cases (z x d : float) :
  PrimFloat.eqb z (of_Z 0) = true ->
  if PrimFloat.is_finite x && negb (is_zero_or_nan d)
  then PrimFloat.eqb (z * x / d) (of_Z 0) = true
  else PrimFloat.is_nan (z * x / d) = true.
Proof.
  intros Hz. apply eqb_zero_Prim2SF in Hz as [sz Hz].
  assert (E : Prim2SF (z * x / d)
              = SFdiv prec emax (SFmul prec emax (S754_zero sz) (Prim2SF x))
                      (Prim2SF d))
    by (now rewrite div_spec, mul_spec, Hz).
  destruct (PrimFloat.is_finite x) eqn:Fx; simpl andb.
  - destruct (is_zero_or_nan d) eqn:Zd; simpl negb; cbv iota.
    + apply is_nan_Prim2SF. rewrite E.
      apply zero_or_nan_Prim2SF in Zd as [[sd ->]| ->];
        destruct (is_finite_Prim2SF _ Fx) as [[sx ->]|(sx & mx & ex & ->)];
        reflexivity.
    + apply eqb_zero_Prim2SF. rewrite E.
      apply not_zero_or_nan_Prim2SF in Zd
        as [[sd ->]|(sd & md & ed & ->)];
        destruct (is_finite_Prim2SF _ Fx) as [[sx ->]|(sx & mx & ex & ->)];
        simpl; eauto.
  - apply is_nan_Prim2SF. rewrite E.
    apply is_finite_false_Prim2SF in Fx as [->|[sx ->]]; reflexivity.
Qed.

End Binary64Rounding.

(** ** Steps 2-8 *)

Section Calculator.
Import Binary64.
Local Open Scope num_scope.

(** C4 -- Step 8, for every run that displays a result: the safety factor
    is [sigma_allowable / sigma] when [sigma != 0] and [0] when
    [sigma == 0], and the strength condition is reported as met exactly
    when [sigma <= sigma_allowable]. *)
Theorem safety_factor_and_verdict :
  forall (F : Type) (AF : Arith F)
         (griddata : list (F * F) -> list F -> F * F -> py F)
         (i : Input.t F) (r : Result.t F),
    run griddata i = Displayed r ->
    ((Result.sigma r != num_of_Z 0) = true ->
     Result.safety_factor r = Result.sigma_allowable r / Result.sigma r) /\
    ((Result.sigma r == num_of_Z 0) = true ->
     Result.safety_factor r = num_of_Z 0) /\
    (Result.strength_ok r = true <->
     (Result.sigma r <=? Result.sigma_allowable r) = true).
Proof.
  intros F AF griddata i r H.
  destruct (run_displayed _ _ H) as [sa [_ Hc]].
  destruct (compute_fields _ _ Hc)
    as (Hsa & _ & _ & _ & _ & _ & _ & _ & _ & _ & Hsf & Hok).
  rewrite Hsf, Hok, Hsa. repeat split.
  - intros ->. reflexivity.
  - intros ->. reflexivity.
  - auto.
  - auto.
Qed.

Lemma safety_factor_and_verdict_witness :
  exists r,
    run (griddata_returning (of_Q 56.5)) spec_example = Displayed r /\
    ((Result.sigma r != num_of_Z 0) = true ->
     Result.safety_factor r = Result.sigma_allowable r / Result.sigma r) /\
    ((Result.sigma r == num_of_Z 0) = true ->
     Result.safety_factor r = num_of_Z 0) /\
    (Result.strength_ok r = true <->
     (Result.sigma r <=? Result.sigma_allowable r) = true).
Proof.
  eexists. split.
  - vm_compute. reflexivity.
  - apply (@safety_factor_and_verdict float arith
             (griddata_returning (of_Q 56.5)) spec_example).
    vm_compute. reflexivity.
Defined.

(** C5 -- When the lookup answers "undeterminable" for [(T, total_hours)]
    the run stops with the message that the allowable stress cannot be
    determined; no result of steps 2-8 is produced, and the outcome does
    not depend on any input those steps would read. *)
Theorem undeterminable_stops_pipeline :
  forall (F : Type) (AF : Arith F)
         (griddata : list (F * F) -> list F -> F * F -> py F)
         (i : Input.t F),
    interpolate_stress griddata (Input.T i) (num_of_Z (total_hours i))
      = Return None ->
    run griddata i = Stopped undeterminable_message /\
    (forall r, run griddata i <> Displayed r) /\
    (forall i', Input.T i' = Input.T i -> total_hours i' = total_hours i ->
                run griddata i' = Stopped undeterminable_message).
Proof.
  intros F AF griddata i H.
  assert (R : run griddata i = Stopped undeterminable_message)
    by (unfold run; now rewrite H).
  repeat split.
  - exact R.
  - intros r. rewrite R. discriminate.
  - intros i' HT Hh. unfold run. now rewrite HT, Hh, H.
Qed.

Lemma undeterminable_stops_pipeline_witness :
  run (griddata_returning PrimFloat.nan) spec_example
    = Stopped undeterminable_message /\
  (forall r, run (griddata_returning PrimFloat.nan) spec_example
             <> Displayed r) /\
  (forall i', Input.T i' = Input.T spec_example ->
              total_hours i' = total_hours spec_example ->
              run (griddata_returning PrimFloat.nan) i'
                = Stopped undeterminable_message).
Proof.
  apply (@undeterminable_stops_pipeline float arith
           (griddata_returning PrimFloat.nan) spec_example).
  vm_compute. reflexivity.
Defined.

(** C7 -- Step 4 stores [f_s = 2 * h_s * ((s_s - c) - s_os)] as computed,
    whatever its sign, and step 6 (hence steps 7 and 8) consumes that very
    value: nothing is clamped or substituted. *)
Theorem reinforcement_area_passes_through :
  forall (F : Type) (AF : Arith F)
         (griddata : list (F * F) -> list F -> F * F -> py F)
         (i : Input.t F) (r : Result.t F),
    run griddata i = Displayed r ->
    Result.f_s r =
      num_of_Z 2 * Result.h_s r
      * ((Input.s_s i - Input.c i) - Result.s_os r) /\
    Result.phi_oc r =
      (if Result.denominator r != num_of_Z 0
       then Result.phi_od r
            * (num_of_Z 1 + Result.f_s r / Result.denominator r)
       else Result.phi_od r) /\
    Result.sigma r =
      Input.p i * (Input.D_a i - (Input.s i - Input.c i))
      / (num_of_Z 2 * Result.phi_oc r * (Input.s i - Input.c i)) /\
    Result.safety_factor r =
      (if Result.sigma r != num_of_Z 0
       then Result.sigma_allowable r / Result.sigma r else num_of_Z 0) /\
    Result.strength_ok r = (Result.sigma r <=? Result.sigma_allowable r).
Proof.
  intros F AF griddata i r H.
  destruct (run_displayed _ _ H) as [sa [_ Hc]].
  destruct (compute_fields _ _ Hc)
    as (Hsa & _ & _ & Hf & _ & _ & _ & _ & Hoc & Hs & Hsf & Hok).
  rewrite Hsa. auto.
Qed.

(** A record with a negative reinforcement area: [f_s = -200]. *)
Lemma reinforcement_area_passes_through_witness :
  exists r,
    run (griddata_returning (of_Q 90.0)) thin_branch = Displayed r /\
    Result.f_s r = of_Z (-200) /\
    Result.f_s r =
      num_of_Z 2 * Result.h_s r
      * ((Input.s_s thin_branch - Input.c thin_branch) - Result.s_os r) /\
    Result.phi_oc r =
      (if Result.denominator r != num_of_Z 0
       then Result.phi_od r
            * (num_of_Z 1 + Result.f_s r / Result.denominator r)
       else Result.phi_od r) /\
    Result.sigma r =
      Input.p thin_branch
      * (Input.D_a thin_branch - (Input.s thin_branch - Input.c thin_branch))
      / (num_of_Z 2 * Result.phi_oc r
         * (Input.s thin_branch - Input.c thin_branch)) /\
    Result.safety_factor r =
      (if Result.sigma r != num_of_Z 0
       then Result.sigma_allowable r / Result.sigma r else num_of_Z 0) /\
    Result.strength_ok r = (Result.sigma r <=? Result.sigma_allowable r).
Proof.
  eexists. split; [vm_compute; reflexivity|].
  split; [vm_compute; reflexivity|].
  apply (@reinforcement_area_passes_through float arith
           (griddata_returning (of_Q 90.0)) thin_branch).
  vm_compute. reflexivity.
Defined.

(** C3 (amended) -- Step 2 stores [h_s = sqrt(1.25 * (d_a - s_s) * (s_s - c))];
    for the worked example (D_a=325, s=38, d_a=93, s_s=21.5, p=14, T=545,
    219142 + 50000 hours, c=0) the total is 269142 hours and
    [h_s = sqrt(1.25 * 71.5 * 21.5)], which is 43.84 mm to the two decimals
    the script displays (43.8356...), not 43.82. *)
Theorem stub_height_of_spec_example :
  forall (griddata : list (float * float) -> list float -> float * float -> py float)
         (i : Input.t float) (r : Result.t float),
    run griddata i = Displayed r ->
    Result.h_s r = PrimFloat.sqrt (radicand i) /\
    (i = spec_example ->
     total_hours i = 269142%Z /\
     Result.h_s r = PrimFloat.sqrt (of_Q 1.25 * of_Q 71.5 * of_Q 21.5)%float /\
     shown_as_2dp (Result.h_s r) 4384 = true).
Proof.
  intros griddata i r H.
  destruct (run_displayed _ _ H) as [sa [_ Hc]].
  destruct (compute_fields _ _ Hc) as (_ & Hh & _).
  split; [exact Hh|].
  intros ->. rewrite Hh. split; [reflexivity|].
  split; vm_compute; reflexivity.
Qed.

Lemma stub_height_of_spec_example_witness :
  exists r,
    run (griddata_returning (of_Q 56.5)) spec_example = Displayed r /\
    Result.h_s r = PrimFloat.sqrt (radicand spec_example) /\
    (spec_example = spec_example ->
     total_hours spec_example = 269142%Z /\
     Result.h_s r = PrimFloat.sqrt (of_Q 1.25 * of_Q 71.5 * of_Q 21.5)%float /\
     shown_as_2dp (Result.h_s r) 4384 = true).
Proof.
  eexists. split; [vm_compute; reflexivity|].
  apply (@stub_height_of_spec_example (griddata_returning (of_Q 56.5))).
  vm_compute. reflexivity.
Defined.

(** C3 as stated fails: on the worked example the pipeline runs to the end
    and the [h_s] it shows is never 43.82. *)
Lemma stub_height_is_not_43_82 :
  (exists r, run (griddata_returning (of_Q 56.5)) spec_example = Displayed r) /\
  (forall griddata r,
     run griddata spec_example = Displayed r ->
     shown_as_2dp (Result.h_s r) 4382 = false).
Proof.
  split.
  - eexists. vm_compute. reflexivity.
  - intros griddata r H.
    destruct (run_displayed _ _ H) as [sa [_ Hc]].
    destruct (compute_fields _ _ Hc) as (_ & Hh & _).
    rewrite Hh. vm_compute. reflexivity.
Qed.

Lemma not_finite_Prim2SF (x : float) :
  (Prim2SF x = S754_nan \/ exists sg, Prim2SF x = S754_infinity sg) ->
  PrimFloat.is_finite x = false.
Proof.
  unfold PrimFloat.is_finite, PrimFloat.is_infinity.
  rewrite negb_false_iff, orb_true_iff. intros [E|[sg E]].
  - left. now apply is_nan_Prim2SF.
  - right. rewrite eqb_spec, abs_spec, E. reflexivity.
Qed.

(** A quotient whose divisor is a product with a zero factor is infinite or
    NaN. *)
Lemma div_by_zero_product_not_finite (n x y : float) :
  PrimFloat.eqb y (of_Z 0) = true ->
  PrimFloat.is_finite (n / (x * y))%float = false.
Proof.
  intros Hy. apply eqb_zero_Prim2SF in Hy as [sy Hy].
  apply not_finite_Prim2SF. rewrite div_spec, mul_spec, Hy.
  unfold SF64div, SF64mul.
  destruct (Prim2SF x) as [sx|sx| |sx mx ex];
    destruct (Prim2SF n) as [sn|sn| |sn mn en]; simpl; eauto.
Qed.

(** C6 (amended) -- The pipeline has no "inputs out of valid domain" result.
    Once the allowable stress is determined, steps 2-8 are evaluated in IEEE
    arithmetic and displayed whatever their values: a negative radicand makes
    [h_s] and [f_s] NaN, [s = c] makes [sigma] infinite or NaN.  The only
    exception that can escape is the division of step 3, when
    [2 * sigma_allowable * 1.0 + p == 0]. *)
Theorem undefined_arithmetic_is_displayed :
  forall (griddata : list (float * float) -> list float -> float * float -> py float)
         (i : Input.t float) (sa : float),
    interpolate_stress griddata (Input.T i) (of_Z (total_hours i))
      = Return (Some sa) ->
    ~ reports_domain_failure (run griddata i) /\
    (PrimFloat.eqb (step3_divisor i sa) (of_Z 0) = true ->
     run griddata i = Uncaught ZeroDivisionError) /\
    (PrimFloat.eqb (step3_divisor i sa) (of_Z 0) = false ->
     exists r,
       run griddata i = Displayed r /\
       (PrimFloat.ltb (radicand i) (of_Z 0) = true ->
        PrimFloat.is_nan (Result.h_s r) = true /\
        PrimFloat.is_nan (Result.f_s r) = true) /\
       (PrimFloat.eqb (Input.s i - Input.c i) (of_Z 0) = true ->
        PrimFloat.is_finite (Result.sigma r) = false)).
Proof.
  intros griddata i sa Hsa. split; [apply run_never_reports_domain_failure|].
  rewrite (run_of_compute _ _ Hsa).
  destruct (compute_cases i sa) as [[Hz Hc]|[Hz [r Hc]]].
  - change (PrimFloat.eqb (step3_divisor i sa) (of_Z 0) = true) in Hz.
    rewrite Hz, Hc. split; [reflexivity|discriminate].
  - change (PrimFloat.eqb (step3_divisor i sa) (of_Z 0) = false) in Hz.
    rewrite Hz, Hc. split; [discriminate|].
    intros _. exists r. split; [reflexivity|].
    destruct (compute_fields _ _ Hc)
      as (_ & Hh & _ & Hf & _ & _ & _ & _ & _ & Hs & _).
    split.
    + intros Hneg. rewrite Hf, Hh.
      assert (N : PrimFloat.is_nan (PrimFloat.sqrt (radicand i)) = true)
        by now apply sqrt_negative_is_nan.
      split; [exact N|]. apply mul_nan_l, mul_nan_r. exact N.
    + intros Hsc. rewrite Hs.
      apply div_by_zero_product_not_finite. exact Hsc.
Qed.

Lemma undefined_arithmetic_is_displayed_witness :
  let i := set_c spec_example (of_Q 30.0) in
  let g := griddata_returning (of_Q 56.5) in
  ~ reports_domain_failure (run g i) /\
  (PrimFloat.eqb (step3_divisor i (of_Q 56.5)) (of_Z 0) = true ->
   run g i = Uncaught ZeroDivisionError) /\
  (PrimFloat.eqb (step3_divisor i (of_Q 56.5)) (of_Z 0) = false ->
   exists r,
     run g i = Displayed r /\
     (PrimFloat.ltb (radicand i) (of_Z 0) = true ->
      PrimFloat.is_nan (Result.h_s r) = true /\
      PrimFloat.is_nan (Result.f_s r) = true) /\
     (PrimFloat.eqb (Input.s i - Input.c i) (of_Z 0) = true ->
      PrimFloat.is_finite (Result.sigma r) = false)).
Proof.
  apply (@undefined_arithmetic_is_displayed
           (griddata_returning (of_Q 56.5))
           (set_c spec_example (of_Q 30.0)) (of_Q 56.5)).
  vm_compute. reflexivity.
Defined.

(** C6 as stated fails: with [c = 30 > s_s = 21.5] the radicand of step 2 is
    negative and with [c = s = 38] the divisor of step 7 is zero, yet both
    runs display a full result (with [h_s] NaN, respectively [sigma]
    infinite) and neither reports a failure. *)
Lemma undefined_arithmetic_reports_no_failure :
  let g := griddata_returning (of_Q 56.5) in
  let i := set_c spec_example (of_Q 30.0) in
  let j := set_c spec_example (of_Q 38.0) in
  PrimFloat.ltb (radicand i) (of_Z 0) = true /\
  (exists r, run g i = Displayed r /\ PrimFloat.is_nan (Result.h_s r) = true) /\
  ~ reports_domain_failure (run g i) /\
  PrimFloat.eqb (Input.s j - Input.c j) (of_Z 0) = true /\
  (exists r, run g j = Displayed r /\ Result.sigma r = PrimFloat.infinity) /\
  ~ reports_domain_failure (run g j).
Proof.
  cbv zeta. repeat split.
  - eexists. split; vm_compute; reflexivity.
  - apply run_never_reports_domain_failure.
  - eexists. split; vm_compute; reflexivity.
  - apply run_never_reports_domain_failure.
Qed.

Section ZeroPressure.
Local Open Scope float_scope.

Lemma lookup_not_nan
    (griddata : list (float * float) -> list float -> float * float -> py float)
    (t h sa : float) :
  interpolate_stress griddata t h = Return (Some sa) ->
  PrimFloat.is_nan sa = false.
Proof.
  rewrite interpolate_stress_12x1mf. intros H.
  destruct (griddata _ _ _) as [v|e]; [|discriminate H].
  change (@num_isnan float arith v) with (PrimFloat.is_nan v) in H.
  destruct (PrimFloat.is_nan v) eqn:N; [discriminate H|].
  injection H as <-. exact N.
Qed.

(** With [p == 0], step 3 answers a zero as soon as its divisor is neither a
    zero nor NaN and [d_a] is finite. *)
Lemma unloaded_s_os (p d_a d : float) :
  PrimFloat.eqb p (of_Z 0) = true -> PrimFloat.is_finite d_a = true ->
  is_zero_or_nan d = false ->
  p * d_a / d = of_Z 0 \/ p * d_a / d = (- of_Z 0).
Proof.
  intros Hp Hd Hz.
  pose proof (@zero_quotient_cases p d_a d Hp) as H.
  rewrite Hd, Hz in H. simpl in H.
  apply eqb_zero_Prim2SF in H as [sg H].
  apply (f_equal SF2Prim) in H. rewrite SF2Prim_Prim2SF in H. rewrite H.
  destruct sg; [right|left]; vm_compute; reflexivity.
Qed.


(** C8 (amended) -- With [p == 0] and a determined allowable stress: when
    the divisor of step 3 is zero (an allowable stress of zero) step 3 raises
    [ZeroDivisionError]; otherwise no division raises, a result is displayed
    and [sigma] is a zero or NaN.  [sigma == 0], with the safety factor 0 of
    the fallback of step 8, exactly when [D_a - (s - c)] is finite and the
    divisor of step 7 is neither a zero nor NaN; in every other case [sigma]
    and the safety factor are both NaN.  For the geometry of the worked
    example (D_a=325, s=38, d_a=93, s_s=21.5, c=0) the first case holds
    whatever the allowable stress. *)
Theorem zero_pressure_sigma :
  forall (griddata : list (float * float) -> list float -> float * float -> py float)
         (i : Input.t float) (sa : float),
    PrimFloat.eqb (Input.p i) (of_Z 0) = true ->
    interpolate_stress griddata (Input.T i) (of_Z (total_hours i))
      = Return (Some sa) ->
    (PrimFloat.eqb (step3_divisor i sa) (of_Z 0) = true ->
     run griddata i = Uncaught ZeroDivisionError) /\
    (PrimFloat.eqb (step3_divisor i sa) (of_Z 0) = false ->
     exists r,
       run griddata i = Displayed r /\
       (if PrimFloat.is_finite (Input.D_a i - (Input.s i - Input.c i))
           && negb (is_zero_or_nan (step7_divisor i (Result.phi_oc r)))
        then PrimFloat.eqb (Result.sigma r) (of_Z 0) = true /\
             Result.safety_factor r = of_Z 0
        else PrimFloat.is_nan (Result.sigma r) = true /\
             PrimFloat.is_nan (Result.safety_factor r) = true) /\
       ((Input.D_a i, Input.s i, Input.d_a i, Input.s_s i, Input.c i)
        = (of_Q 325.0, of_Q 38.0, of_Q 93.0, of_Q 21.5, of_Q 0.0) ->
        PrimFloat.eqb (Result.sigma r) (of_Z 0) = true /\
        Result.safety_factor r = of_Z 0)).
Proof.
  intros griddata i sa Hp Hsa.
  rewrite (run_of_compute _ _ Hsa).
  destruct (compute_cases i sa) as [[Hz Hc]|[Hz [r Hc]]];
    change (PrimFloat.eqb (step3_divisor i sa) (of_Z 0) = true) in Hz
    || change (PrimFloat.eqb (step3_divisor i sa) (of_Z 0) = false) in Hz;
    rewrite Hz, Hc.
  - split; [reflexivity|intros H; discriminate H].
  - split; [intros H; discriminate H|]. intros _. exists r.
    split; [reflexivity|].
    destruct (compute_fields _ _ Hc)
      as (_ & Hh & Hso & Hf & HDm & Hzz & Hod & Hden & Hoc & Hs & Hsf & _).
    change (Result.sigma r =
            (Input.p i * (Input.D_a i - (Input.s i - Input.c i))
             / step7_divisor i (Result.phi_oc r))%float) in Hs.
    change (Result.safety_factor r =
            (if negb (PrimFloat.eqb (Result.sigma r) (of_Z 0))
             then (sa / Result.sigma r)%float else of_Z 0)) in Hsf.
    pose proof (@zero_quotient_cases (Input.p i)
                  (Input.D_a i - (Input.s i - Input.c i))
                  (step7_divisor i (Result.phi_oc r)) Hp) as Main.
    rewrite <- Hs in Main.
    assert (Both :
      if PrimFloat.is_finite (Input.D_a i - (Input.s i - Input.c i))
         && negb (is_zero_or_nan (step7_divisor i (Result.phi_oc r)))
      then PrimFloat.eqb (Result.sigma r) (of_Z 0) = true /\
           Result.safety_factor r = of_Z 0
      else PrimFloat.is_nan (Result.sigma r) = true /\
           PrimFloat.is_nan (Result.safety_factor r) = true).
    { destruct (_ && _).
      - split; [exact Main|]. rewrite Hsf, Main. reflexivity.
      - split; [exact Main|]. rewrite Hsf.
        assert (E : PrimFloat.eqb (Result.sigma r) (of_Z 0) = false).
        { apply is_nan_Prim2SF in Main. rewrite eqb_spec, Main. reflexivity. }
        rewrite E. apply div_nan_r. exact Main. }
    split; [exact Both|].
    intros Hgeo. injection Hgeo as HD Hs' Hd Hss Hcc.
    assert (Hz3 : is_zero_or_nan (step3_divisor i sa) = false).
    { unfold is_zero_or_nan. rewrite Hz.
      rewrite (@step3_divisor_not_nan i sa Hp
                 (@lookup_not_nan griddata _ _ sa Hsa)).
      reflexivity. }
    assert (Hfd : PrimFloat.is_finite (Input.d_a i) = true)
      by (rewrite Hd; vm_compute; reflexivity).
    pose proof (@unloaded_s_os (Input.p i) (Input.d_a i)
                  (step3_divisor i sa) Hp Hfd Hz3) as Hzero.
    change (Result.s_os r
            = (Input.p i * Input.d_a i / step3_divisor i sa)%float) in Hso.
    rewrite <- Hso in Hzero.
    assert (C : PrimFloat.is_finite (Input.D_a i - (Input.s i - Input.c i))
                && negb (is_zero_or_nan (step7_divisor i (Result.phi_oc r)))
                = true).
    { apply andb_true_iff. split.
      - rewrite HD, Hs', Hcc. vm_compute. reflexivity.
      - unfold step7_divisor.
        rewrite Hoc, Hden, Hod, Hzz, HDm, Hf, Hh, HD, Hs', Hd, Hss, Hcc.
        destruct Hzero as [-> | ->]; vm_compute; reflexivity. }
    rewrite C in Both. exact Both.
Qed.

Lemma zero_pressure_sigma_witness :
  exists r,
    run (griddata_returning (of_Q 56.5)) (set_p spec_example (of_Q 0.0))
      = Displayed r /\
    PrimFloat.eqb (Result.sigma r) (of_Z 0) = true /\
    Result.safety_factor r = of_Z 0.
Proof.
  destruct (@zero_pressure_sigma (griddata_returning (of_Q 56.5))
              (set_p spec_example (of_Q 0.0)) (of_Q 56.5))
    as [_ H]; [vm_compute; reflexivity|vm_compute; reflexivity|].
  destruct H as (r & Hr & _ & Hw); [vm_compute; reflexivity|].
  exists r. split; [exact Hr|]. apply Hw. vm_compute. reflexivity.
Defined.

End ZeroPressure.

(** C8 as stated fails, also for records that satisfy the invariant
    [c < s] and [c < s_s]: with [p = 0] and a main pipe whose diameter
    [D_a = 30] is below its wall thickness [s = 38], [np.sqrt] answers NaN
    in step 5, step 7 computes [0 / NaN], and [sigma] and the safety factor
    are NaN instead of [0].  The same happens for [c = s = 38], where step 7
    divides zero by zero, and for the record [oversized], which keeps
    [c < s_s < d_a] and [c < s < D_a]: there [f_s] and the denominator of
    step 6 overflow and [phi_oc] is NaN. *)
Lemma zero_pressure_nan_sigma :
  let g := griddata_returning (of_Q 56.5) in
  let i := Input.make (of_Q 30.0) (of_Q 38.0) (of_Q 93.0) (of_Q 21.5)
                      (of_Q 0.0) (of_Q 545.0) 219142 50000 (of_Q 0.0) in
  let j := set_c (set_p spec_example (of_Q 0.0)) (of_Q 38.0) in
  (Input.p i = of_Z 0 /\
   PrimFloat.ltb (Input.c i) (Input.s i) = true /\
   PrimFloat.ltb (Input.c i) (Input.s_s i) = true /\
   exists r,
     run g i = Displayed r /\
     PrimFloat.eqb (Result.sigma r) (of_Z 0) = false /\
     PrimFloat.is_nan (Result.sigma r) = true /\
     PrimFloat.is_nan (Result.safety_factor r) = true /\
     Result.safety_factor r <> of_Z 0) /\
  (Input.p j = of_Z 0 /\
   exists r,
     run g j = Displayed r /\
     PrimFloat.eqb (Result.sigma r) (of_Z 0) = false /\
     PrimFloat.is_nan (Result.sigma r) = true /\
     PrimFloat.is_nan (Result.safety_factor r) = true /\
     Result.safety_factor r <> of_Z 0) /\
  (Input.p oversized = of_Z 0 /\
   PrimFloat.ltb (Input.c oversized) (Input.s_s oversized) = true /\
   PrimFloat.ltb (Input.s_s oversized) (Input.d_a oversized) = true /\
   PrimFloat.ltb (Input.c oversized) (Input.s oversized) = true /\
   PrimFloat.ltb (Input.s oversized) (Input.D_a oversized) = true /\
   PrimFloat.is_finite (Input.D_a oversized) = true /\
   exists r,
     run g oversized = Displayed r /\
     PrimFloat.eqb (Result.sigma r) (of_Z 0) = false /\
     PrimFloat.is_nan (Result.sigma r) = true /\
     PrimFloat.is_nan (Result.safety_factor r) = true /\
     Result.safety_factor r <> of_Z 0).
Proof.
  cbv zeta. split; [|split].
  - split; [vm_compute; reflexivity|].
    split; [vm_compute; reflexivity|].
    split; [vm_compute; reflexivity|].
    eexists. split; [vm_compute; reflexivity|].
    repeat split; try (vm_compute; reflexivity).
    intros E. apply (f_equal PrimFloat.is_nan) in E. vm_compute in E.
    discriminate E.
  - split; [vm_compute; reflexivity|].
    eexists. split; [vm_compute; reflexivity|].
    repeat split; try (vm_compute; reflexivity).
    intros E. apply (f_equal PrimFloat.is_nan) in E. vm_compute in E.
    discriminate E.
  - do 6 (split; [vm_compute; reflexivity|]).
    eexists. split; [vm_compute; reflexivity|].
    repeat split; try (vm_compute; reflexivity).
    intros E. apply (f_equal PrimFloat.is_nan) in E. vm_compute in E.
    discriminate E.
Qed.






End Calculator.

(** ** The lookup in exact arithmetic *)

Section ExactLookup.
Import Exact.
Local Open Scope R_scope.

Variable delaunay : list point -> option (list simplex).

Lemma points_of_samples (zpts : list (Z * Z)) :
  points_of (map to_point zpts) = Some (map inj zpts).
Proof.
  induction zpts as [|q l IH]; [reflexivity|].
  cbn [map points_of]. rewrite IH. reflexivity.
Qed.

Lemma reals_of_values (zvals : list Z) :
  reals_of (map num_of_Z zvals) = Some (map IZR zvals).
Proof.
  induction zvals as [|v l IH]; [reflexivity|].
  cbn [map reals_of]. rewrite IH. reflexivity.
Qed.

Lemma in_hull_eq (pts : list point) (a b : point) :
  in_hull pts a -> fst a = fst b -> snd a = snd b -> in_hull pts b.
Proof.
  destruct a, b. simpl. intros H -> ->. exact H.
Qed.

(** A convex combination of three points of the hull is in the hull. *)
Lemma in_hull_triangle (pts : list point) (a b r q : point) (c0 c1 c2 : R) :
  in_hull pts a -> in_hull pts b -> in_hull pts r ->
  0 <= c0 -> 0 <= c1 -> 0 <= c2 -> c0 + c1 + c2 = 1 ->
  fst q = c0 * fst a + c1 * fst b + c2 * fst r ->
  snd q = c0 * snd a + c1 * snd b + c2 * snd r ->
  in_hull pts q.
Proof.
  intros Ha Hb Hr H0 H1 H2 Hs Hx Hy.
  destruct (Req_dec_T (c0 + c1) 0) as [Z|NZ].
  - assert (c0 = 0) by lra. assert (c1 = 0) by lra. assert (c2 = 1) by lra.
    subst c0 c1 c2. apply (@in_hull_eq pts r q Hr); lra.
  - set (t := c0 + c1).
    assert (Ht : 0 < t) by (unfold t; lra).
    assert (Hm : in_hull pts
                   (c0 / t * fst a + (1 - c0 / t) * fst b,
                    c0 / t * snd a + (1 - c0 / t) * snd b)).
    { apply hull_segment; auto. split.
      - apply Rmult_le_pos; [lra|]. left. now apply Rinv_0_lt_compat.
      - apply Rmult_le_reg_r with t; [lra|]. unfold Rdiv.
        rewrite Rmult_assoc, Rinv_l by lra. unfold t. lra. }
    assert (Hq := @hull_segment pts _ _ t Hm Hr).
    apply (@in_hull_eq pts _ q (Hq ltac:(unfold t; lra))); simpl.
    + rewrite Hx. replace c2 with (1 - t) by (unfold t; lra).
      replace c1 with (t - c0) by (unfold t; lra). field. lra.
    + rewrite Hy. replace c2 with (1 - t) by (unfold t; lra).
      replace c1 with (t - c0) by (unfold t; lra). field. lra.
Qed.

Lemma barycentric_sound (a b r q : point) (c0 c1 c2 : R) :
  barycentric a b r q = Some (c0, c1, c2) ->
  det a b r <> 0 /\ c0 + c1 + c2 = 1 /\
  fst q = c0 * fst a + c1 * fst b + c2 * fst r /\
  snd q = c0 * snd a + c1 * snd b + c2 * snd r.
Proof.
  unfold barycentric. destruct (Req_dec_T (det a b r) 0) as [|Hd]; [discriminate|].
  intros H. injection H as <- <- <-.
  split; [exact Hd|]. split; [lra|].
  unfold det in *. split; field; exact Hd.
Qed.

Lemma nonnegb_true (x : R) : nonnegb x = true -> 0 <= x.
Proof. unfold nonnegb. now destruct (Rle_dec 0 x). Qed.

Lemma locate_sound (pts : list point) (q : point) (i j k : nat) (c0 c1 c2 : R) :
  locate pts q (i, j, k) = Some (c0, c1, c2) ->
  exists a b r,
    nth_error pts i = Some a /\ nth_error pts j = Some b /\
    nth_error pts k = Some r /\
    barycentric a b r q = Some (c0, c1, c2) /\
    0 <= c0 /\ 0 <= c1 /\ 0 <= c2.
Proof.
  unfold locate.
  destruct (nth_error pts i) as [a|]; [|discriminate].
  destruct (nth_error pts j) as [b|]; [|discriminate].
  destruct (nth_error pts k) as [r|]; [|discriminate].
  destruct (barycentric a b r q) as [[[d0 d1] d2]|] eqn:B; [|discriminate].
  destruct (nonnegb d0) eqn:N0; [|discriminate].
  destruct (nonnegb d1) eqn:N1; [|discriminate].
  destruct (nonnegb d2) eqn:N2; [|discriminate].
  simpl. intros H. injection H as <- <- <-.
  exists a, b, r.
  split; [reflexivity|]. split; [reflexivity|]. split; [reflexivity|].
  split; [exact B|].
  split; [now apply nonnegb_true|].
  split; now apply nonnegb_true.
Qed.

Lemma find_simplex_sound (pts : list point) (q : point) (sxs : list simplex)
    (sx : simplex) (cs : R * R * R) :
  find_simplex pts q sxs = Some (sx, cs) ->
  In sx sxs /\ locate pts q sx = Some cs.
Proof.
  induction sxs as [|s l IH]; [discriminate|]. simpl.
  destruct (locate pts q s) as [c|] eqn:L.
  - intros H. injection H as <- <-. auto.
  - intros H. destruct (IH H). auto.
Qed.

Lemma find_simplex_complete (pts : list point) (q : point) (sxs : list simplex)
    (sx : simplex) :
  In sx sxs -> locate pts q sx <> None -> find_simplex pts q sxs <> None.
Proof.
  induction sxs as [|s l IH]; [contradiction|]. simpl.
  intros [->|Hin] HL.
  - destruct (locate pts q sx); [discriminate|contradiction].
  - destruct (locate pts q s); [discriminate|auto].
Qed.

(** What a defined answer of the interpolation is. *)
Lemma griddata_linear_value (zpts : list (Z * Z)) (zvals : list Z)
    (x y : xreal) (v : xreal) :
  griddata_linear delaunay (map to_point zpts) (map num_of_Z zvals) (x, y)
    = Return v ->
  xisnan v = false ->
  exists qx qy sxs i j k c0 c1 c2 va vb vc,
    x = XR qx /\ y = XR qy /\
    delaunay (map inj zpts) = Some sxs /\
    find_simplex (map inj zpts) (qx, qy) sxs = Some ((i, j, k), (c0, c1, c2)) /\
    nth_error (map IZR zvals) i = Some va /\
    nth_error (map IZR zvals) j = Some vb /\
    nth_error (map IZR zvals) k = Some vc /\
    v = XR (c0 * va + c1 * vb + c2 * vc).
Proof.
  unfold griddata_linear.
  rewrite points_of_samples, reals_of_values. unfold point_of. simpl.
  destruct x as [|qx]; [discriminate|]. destruct y as [|qy]; [discriminate|].
  simpl. destruct (delaunay (map inj zpts)) as [sxs|]; [|discriminate].
  destruct (find_simplex _ _ sxs) as [[[[i j] k] [[c0 c1] c2]]|] eqn:Fs.
  - unfold index, bind.
    destruct (nth_error _ i) as [va|] eqn:Ei; [|discriminate].
    destruct (nth_error _ j) as [vb|] eqn:Ej; [|discriminate].
    destruct (nth_error _ k) as [vc|] eqn:Ek; [|discriminate].
    intros H _. injection H as <-.
    exists qx, qy, sxs, i, j, k, c0, c1, c2, va, vb, vc.
    repeat (split; [reflexivity || assumption|]). reflexivity.
  - intros H. injection H as <-. discriminate.
Qed.

(** At a vertex of a triangle that is not flat the coordinates are the unit
    ones. *)
Lemma barycentric_vertex_a (a b r : point) :
  det a b r <> 0 -> barycentric a b r a = Some (1, 0, 0).
Proof.
  intros Hd. unfold barycentric.
  destruct (Req_dec_T (det a b r) 0) as [|_]; [contradiction|].
  unfold det in *. f_equal. f_equal; [f_equal|]; field; exact Hd.
Qed.

Lemma barycentric_vertex_b (a b r : point) :
  det a b r <> 0 -> barycentric a b r b = Some (0, 1, 0).
Proof.
  intros Hd. unfold barycentric.
  destruct (Req_dec_T (det a b r) 0) as [|_]; [contradiction|].
  unfold det in *. f_equal. f_equal; [f_equal|]; field; exact Hd.
Qed.

Lemma barycentric_vertex_r (a b r : point) :
  det a b r <> 0 -> barycentric a b r r = Some (0, 0, 1).
Proof.
  intros Hd. unfold barycentric.
  destruct (Req_dec_T (det a b r) 0) as [|_]; [contradiction|].
  unfold det in *. f_equal. f_equal; [f_equal|]; field; exact Hd.
Qed.

Lemma nonnegb_0 : nonnegb 0 = true.
Proof. unfold nonnegb. destruct (Rle_dec 0 0); [reflexivity|lra]. Qed.

Lemma nonnegb_1 : nonnegb 1 = true.
Proof. unfold nonnegb. destruct (Rle_dec 0 1); [reflexivity|lra]. Qed.

(** A vertex of a simplex is located in it. *)
Lemma locate_vertex (pts : list point) (i j k m : nat) (a b r q : point) :
  nth_error pts i = Some a -> nth_error pts j = Some b ->
  nth_error pts k = Some r -> det a b r <> 0 ->
  nth_error pts m = Some q -> vertex_of m (i, j, k) ->
  locate pts q (i, j, k) <> None.
Proof.
  intros Hi Hj Hk Hd Hm [E|[E|E]]; subst m; unfold locate;
    rewrite Hi, Hj, Hk.
  - assert (q = a) by congruence. subst q.
    rewrite (barycentric_vertex_a Hd), nonnegb_0, nonnegb_1. discriminate.
  - assert (q = b) by congruence. subst q.
    rewrite (barycentric_vertex_b Hd), nonnegb_0, nonnegb_1. discriminate.
  - assert (q = r) by congruence. subst q.
    rewrite (barycentric_vertex_r Hd), nonnegb_0, nonnegb_1. discriminate.
Qed.

(** The interpolant at a vertex is the value attached to that vertex. *)
Lemma value_at_vertex (pts : list point) (vals : list R) (i j k m : nat)
    (q : point) (c0 c1 c2 va vb vc vm : R) :
  locate pts q (i, j, k) = Some (c0, c1, c2) ->
  nth_error pts m = Some q -> vertex_of m (i, j, k) ->
  nth_error vals i = Some va -> nth_error vals j = Some vb ->
  nth_error vals k = Some vc -> nth_error vals m = Some vm ->
  c0 * va + c1 * vb + c2 * vc = vm.
Proof.
  intros HL Hm Hv Ei Ej Ek Em.
  destruct (locate_sound _ _ _ _ _ HL) as (a & b & r & Hi & Hj & Hk & HB & _).
  destruct (barycentric_sound _ _ _ _ HB) as [Hd _].
  destruct Hv as [E|[E|E]]; subst m.
  - assert (q = a) by congruence. subst q.
    rewrite (barycentric_vertex_a Hd) in HB. injection HB as <- <- <-.
    assert (vm = va) by congruence. subst vm. lra.
  - assert (q = b) by congruence. subst q.
    rewrite (barycentric_vertex_b Hd) in HB. injection HB as <- <- <-.
    assert (vm = vb) by congruence. subst vm. lra.
  - assert (q = r) by congruence. subst q.
    rewrite (barycentric_vertex_r Hd) in HB. injection HB as <- <- <-.
    assert (vm = vc) by congruence. subst vm. lra.
Qed.

(** The interpolation is exact at every sample of a tessellated set. *)
Lemma interpolate_at_sample (zpts : list (Z * Z)) (zvals : list Z)
    (sxs : list simplex) (m : nat) (zq : Z * Z) (zv : Z) :
  List.length zpts = List.length zvals ->
  delaunay (map inj zpts) = Some sxs ->
  tessellates (map inj zpts) sxs ->
  nth_error zpts m = Some zq -> nth_error zvals m = Some zv ->
  griddata_linear delaunay (map to_point zpts) (map num_of_Z zvals)
                  (to_point zq)
    = Return (XR (IZR zv)).
Proof.
  intros Hlen Hdl [Tnd Tsv Tin] Hq Hv.
  assert (Hq' : nth_error (map inj zpts) m = Some (inj zq))
    by now apply map_nth_error.
  assert (Hv' : nth_error (map IZR zvals) m = Some (IZR zv))
    by now apply map_nth_error.
  unfold griddata_linear.
  rewrite points_of_samples, reals_of_values.
  change (point_of (to_point zq)) with (Some (inj zq)). cbv iota beta.
  rewrite Hdl.
  destruct (find_simplex (map inj zpts) (inj zq) sxs)
    as [[[[i j] k] [[c0 c1] c2]]|] eqn:Fs.
  - destruct (find_simplex_sound _ _ _ Fs) as [Hin HL].
    assert (Hvx : vertex_of m (i, j, k)).
    { apply (Tin (i, j, k) m (inj zq) Hin Hq'). rewrite HL. discriminate. }
    destruct (locate_sound _ _ _ _ _ HL) as (a & b & r & Hi & Hj & Hk & _).
    assert (Hval : forall n p, nth_error (map inj zpts) n = Some p ->
                     exists w, nth_error (map IZR zvals) n = Some w).
    { intros n p Hn.
      assert (n < List.length (map IZR zvals))%nat.
      { rewrite length_map, <- Hlen, <- (length_map inj).
        apply nth_error_Some. congruence. }
      destruct (nth_error (map IZR zvals) n) as [w|] eqn:E; eauto.
      apply nth_error_None in E. lia. }
    destruct (Hval _ _ Hi) as [va Ea].
    destruct (Hval _ _ Hj) as [vb Eb].
    destruct (Hval _ _ Hk) as [vc Ec].
    unfold index, bind. rewrite Ea, Eb, Ec. do 2 f_equal.
    apply (value_at_vertex _ _ HL Hq' Hvx Ea Eb Ec Hv').
  - exfalso.
    assert (Hm : (m < List.length (map inj zpts))%nat)
      by (apply nth_error_Some; congruence).
    destruct (Tsv m Hm) as [[[i j] k] [Hin Hvx]].
    destruct (Tnd i j k Hin) as (a & b & r & Hi & Hj & Hk & Hd).
    apply (@find_simplex_complete (map inj zpts) (inj zq) sxs (i, j, k) Hin);
      [|exact Fs].
    eapply locate_vertex; eauto.
Qed.

(** A defined answer is a convex combination of three samples. *)
Lemma griddata_linear_convex (zpts : list (Z * Z)) (zvals : list Z)
    (x y v : xreal) :
  griddata_linear delaunay (map to_point zpts) (map num_of_Z zvals) (x, y)
    = Return v ->
  xisnan v = false ->
  exists qx qy a b r va vb vc c0 c1 c2,
    x = XR qx /\ y = XR qy /\
    In a (map inj zpts) /\ In b (map inj zpts) /\ In r (map inj zpts) /\
    In va (map IZR zvals) /\ In vb (map IZR zvals) /\ In vc (map IZR zvals) /\
    0 <= c0 /\ 0 <= c1 /\ 0 <= c2 /\ c0 + c1 + c2 = 1 /\
    qx = c0 * fst a + c1 * fst b + c2 * fst r /\
    qy = c0 * snd a + c1 * snd b + c2 * snd r /\
    v = XR (c0 * va + c1 * vb + c2 * vc).
Proof.
  intros G N.
  destruct (griddata_linear_value _ _ _ _ G N)
    as (qx & qy & sxs & i & j & k & c0 & c1 & c2 & va & vb & vc
        & -> & -> & _ & Fs & Ea & Eb & Ec & ->).
  destruct (find_simplex_sound _ _ _ Fs) as [_ HL].
  destruct (locate_sound _ _ _ _ _ HL)
    as (a & b & r & Hi & Hj & Hk & HB & P0 & P1 & P2).
  destruct (barycentric_sound _ _ _ _ HB) as (_ & Hs & Hx & Hy).
  exists qx, qy, a, b, r, va, vb, vc, c0, c1, c2.
  repeat (split; [solve [reflexivity | assumption
                         | eapply nth_error_In; eassumption]|]).
  reflexivity.
Qed.

(** Outside the convex hull of the samples there is no value. *)
Lemma outside_hull_undeterminable (tb : table) (pv : cells) (t h : R) :
  collect tb = Return pv ->
  ~ in_hull (map inj (fst pv)) (t, h) ->
  interpolate_stress_on (griddata_linear delaunay) tb (XR t) (XR h)
    = Return None.
Proof.
  intros Hc Hout.
  destruct (fst pv) as [|q0 l] eqn:E.
  - now apply (interpolate_no_points _ tb (XR t) (XR h) Hc).
  - rewrite (interpolate_some_points _ tb (XR t) (XR h) Hc)
      by (rewrite E; discriminate).
    destruct (griddata_linear _ _ _ _) as [v|e] eqn:G; [|reflexivity].
    change (num_isnan v) with (xisnan v).
    destruct (xisnan v) eqn:N; [reflexivity|]. exfalso. apply Hout.
    destruct (griddata_linear_convex _ _ _ _ G N)
      as (qx & qy & a & b & r & va & vb & vc & c0 & c1 & c2
          & Hx & Hy & Ia & Ib & Ir & _ & _ & _
          & P0 & P1 & P2 & Hs & Ex & Ey & _).
    injection Hx as <-. injection Hy as <-. rewrite <- E.
    apply (@in_hull_triangle (map inj (fst pv)) a b r (t, h) c0 c1 c2);
      auto using hull_sample.
Qed.

(** The hull of points that lie on one side of a line stays on that side. *)
Lemma hull_below_line (zpts : list (Z * Z)) (A B C : Z) (q : point) :
  forallb (fun z => (A * fst z + B * snd z <=? C)%Z) zpts = true ->
  in_hull (map inj zpts) q ->
  IZR A * fst q + IZR B * snd q <= IZR C.
Proof.
  intros Hall Hq. induction Hq as [a Ha|a b t _ IHa _ IHb Ht].
  - apply in_map_iff in Ha as [z [<- Hz]].
    rewrite forallb_forall in Hall. specialize (Hall z Hz).
    apply Z.leb_le, IZR_le in Hall.
    rewrite plus_IZR, !mult_IZR in Hall. exact Hall.
  - simpl. nra.
Qed.

(** Every defined answer lies between the extreme sample values. *)
Lemma griddata_linear_bounds (zpts : list (Z * Z)) (zvals : list Z)
    (lo hi : Z) (x y v : xreal) :
  forallb (fun z => (lo <=? z)%Z && (z <=? hi)%Z) zvals = true ->
  griddata_linear delaunay (map to_point zpts) (map num_of_Z zvals) (x, y)
    = Return v ->
  xisnan v = false ->
  exists w, v = XR w /\ IZR lo <= w <= IZR hi.
Proof.
  intros Hall G N.
  destruct (griddata_linear_convex _ _ _ _ G N)
    as (qx & qy & a & b & r & va & vb & vc & c0 & c1 & c2
        & _ & _ & _ & _ & _ & Ia & Ib & Ic
        & P0 & P1 & P2 & Hs & _ & _ & ->).
  assert (Hb : forall w, In w (map IZR zvals) -> IZR lo <= w <= IZR hi).
  { intros w Hw. apply in_map_iff in Hw as [z [<- Hz]].
    rewrite forallb_forall in Hall. specialize (Hall z Hz).
    apply andb_true_iff in Hall as [L U].
    apply Z.leb_le, IZR_le in L. apply Z.leb_le, IZR_le in U. lra. }
  apply Hb in Ia, Ib, Ic. eexists. split; [reflexivity|]. nra.
Qed.

(** *** Checking a tessellation on integer coordinates *)

Lemma det_inj (a b r : Z * Z) : det (inj a) (inj b) (inj r) = IZR (detZ a b r).
Proof.
  unfold det, detZ, inj. simpl.
  rewrite minus_IZR, !mult_IZR, !minus_IZR. reflexivity.
Qed.

Lemma num0_inj (b r q : Z * Z) :
  (fst (inj q) - fst (inj r)) * (snd (inj b) - snd (inj r))
  - (fst (inj b) - fst (inj r)) * (snd (inj q) - snd (inj r))
  = IZR (num0 b r q).
Proof.
  unfold num0, inj. simpl.
  rewrite minus_IZR, !mult_IZR, !minus_IZR. reflexivity.
Qed.

Lemma num1_inj (a r q : Z * Z) :
  (fst (inj a) - fst (inj r)) * (snd (inj q) - snd (inj r))
  - (fst (inj q) - fst (inj r)) * (snd (inj a) - snd (inj r))
  = IZR (num1 a r q).
Proof.
  unfold num1, inj. simpl.
  rewrite minus_IZR, !mult_IZR, !minus_IZR. reflexivity.
Qed.

Lemma quotient_nonneg (n d : Z) :
  IZR d <> 0 -> 0 <= IZR n / IZR d -> (0 <=? n * d)%Z = true.
Proof.
  intros Hd Hq. apply Z.leb_le, le_IZR. rewrite mult_IZR.
  assert (E : IZR n = IZR n / IZR d * IZR d) by (field; exact Hd).
  rewrite E. set (x := IZR n / IZR d) in *. nra.
Qed.

Lemma inside_inj (a b r q : Z * Z) (c0 c1 c2 : R) :
  barycentric (inj a) (inj b) (inj r) (inj q) = Some (c0, c1, c2) ->
  0 <= c0 -> 0 <= c1 -> 0 <= c2 ->
  insideZb a b r q = true.
Proof.
  unfold barycentric. rewrite det_inj, num0_inj, num1_inj.
  destruct (Req_dec_T (IZR (detZ a b r)) 0) as [|Hd]; [discriminate|].
  intros H. injection H as <- <- <-. intros P0 P1 P2.
  unfold insideZb. rewrite !andb_true_iff. repeat split.
  - apply negb_true_iff, Z.eqb_neq. intros E. apply Hd. now rewrite E.
  - now apply quotient_nonneg.
  - now apply quotient_nonneg.
  - apply quotient_nonneg; [exact Hd|].
    rewrite !minus_IZR.
    replace ((IZR (detZ a b r) - IZR (num0 b r q) - IZR (num1 a r q))
             / IZR (detZ a b r))
      with (1 - IZR (num0 b r q) / IZR (detZ a b r)
              - IZR (num1 a r q) / IZR (detZ a b r))
      by (field; exact Hd).
    exact P2.
Qed.

Lemma In_enumerate_from {A : Type} (l : list A) (n m : nat) (a : A) :
  nth_error l m = Some a -> In ((n + m)%nat, a) (enumerate_from n l).
Proof.
  revert n m. induction l as [|x l IH]; intros n [|m] H; try discriminate.
  - injection H as ->. rewrite Nat.add_0_r. now left.
  - right. rewrite Nat.add_succ_r. apply (IH (S n) m H).
Qed.

Lemma vertexb_vertex_of (m : nat) (sx : simplex) :
  vertexb m sx = true -> vertex_of m sx.
Proof.
  destruct sx as [[i j] k]. unfold vertexb, vertex_of.
  rewrite !orb_true_iff, !Nat.eqb_eq. tauto.
Qed.

Lemma tessellates_Zb_sound (zpts : list (Z * Z)) (sxs : list simplex) :
  tessellates_Zb zpts sxs = true -> tessellates (map inj zpts) sxs.
Proof.
  unfold tessellates_Zb. rewrite andb_true_iff, !forallb_forall.
  intros [Hok Hcov].
  assert (Hsx : forall i j k, In (i, j, k) sxs ->
            exists a b r,
              nth_error zpts i = Some a /\ nth_error zpts j = Some b /\
              nth_error zpts k = Some r /\ detZ a b r <> 0%Z /\
              forall m q, nth_error zpts m = Some q ->
                vertexb m (i, j, k) = true \/ insideZb a b r q = false).
  { intros i j k Hin. specialize (Hok _ Hin). unfold simplex_okb in Hok.
    destruct (nth_error zpts i) as [a|]; [|discriminate].
    destruct (nth_error zpts j) as [b|]; [|discriminate].
    destruct (nth_error zpts k) as [r|]; [|discriminate].
    apply andb_true_iff in Hok as [Hd Hall].
    exists a, b, r. repeat (split; [reflexivity|]). split.
    - now apply Z.eqb_neq, negb_true_iff.
    - intros m q Hm. rewrite forallb_forall in Hall.
      specialize (Hall (m, q) (In_enumerate_from zpts 0 m Hm)).
      simpl in Hall. apply orb_true_iff in Hall as [H|H]; [now left|right].
      now apply negb_true_iff. }
  constructor.
  - intros i j k Hin.
    destruct (Hsx i j k Hin) as (a & b & r & Hi & Hj & Hk & Hd & _).
    exists (inj a), (inj b), (inj r).
    repeat (split; [now apply map_nth_error|]).
    rewrite det_inj. intros E. apply Hd. now apply eq_IZR.
  - intros m Hm. rewrite length_map in Hm.
    assert (In m (seq 0 (List.length zpts))) by (apply in_seq; lia).
    specialize (Hcov m H). apply existsb_exists in Hcov as [sx [Hin Hv]].
    exists sx. split; [exact Hin|]. now apply vertexb_vertex_of.
  - intros [[i j] k] m q Hin Hm HL.
    destruct (Hsx i j k Hin) as (a & b & r & Hi & Hj & Hk & Hd & Hall).
    rewrite nth_error_map in Hm.
    destruct (nth_error zpts m) as [zq|] eqn:Em; [|discriminate].
    injection Hm as <-.
    destruct (Hall m zq Em) as [H|H]; [now apply vertexb_vertex_of|].
    exfalso.
    destruct (locate (map inj zpts) (inj zq) (i, j, k))
      as [[[c0 c1] c2]|] eqn:L; [|now apply HL].
    destruct (locate_sound _ _ _ _ _ L)
      as (a' & b' & r' & Hi' & Hj' & Hk' & HB & P0 & P1 & P2).
    rewrite (map_nth_error inj _ _ Hi) in Hi'.
    rewrite (map_nth_error inj _ _ Hj) in Hj'.
    rewrite (map_nth_error inj _ _ Hk) in Hk'.
    injection Hi' as <-. injection Hj' as <-. injection Hk' as <-.
    rewrite (inside_inj _ _ _ _ HB P0 P1 P2) in H. discriminate.
Qed.

(** *** The 12Kh1MF table *)

Lemma In_combine_nth {A B : Type} (l : list A) (l' : list B) (a : A) (b : B) :
  In (a, b) (combine l l') ->
  exists m, nth_error l m = Some a /\ nth_error l' m = Some b.
Proof.
  revert l'. induction l as [|x l IH]; intros [|y l'] H; try contradiction.
  destruct H as [H|H].
  - injection H as -> ->. now exists 0%nat.
  - destruct (IH l' H) as [m Hm]. now exists (S m).
Qed.

Lemma In_by_evaluation (l : list (Z * Z * Z)) (t h v : Z) :
  existsb (fun e => (fst (fst e) =? t)%Z && (snd (fst e) =? h)%Z
                    && (snd e =? v)%Z) l = true ->
  In (t, h, v) l.
Proof.
  intros H. apply existsb_exists in H as [[[t' h'] v'] [Hin H]].
  simpl in H. rewrite !andb_true_iff, !Z.eqb_eq in H.
  destruct H as [[-> ->] ->]. exact Hin.
Qed.

Lemma present_cells_aligned :
  List.length present_points = List.length present_values.
Proof. reflexivity. Qed.

(** Every cell of the table that holds a value is among the collected
    points, at the position of its value. *)
Lemma tabulated_present (temp hours v : Z) :
  tabulated table_12x1mf temp hours v ->
  exists m, nth_error present_points m = Some (temp, hours) /\
            nth_error present_values m = Some v.
Proof.
  intros (temp_idx & row & Ht & Hh & Hr & Hv).
  apply In_combine_nth.
  simpl in Hh.
  repeat (destruct Hh as [Hh|Hh]; [subst hours|]); try contradiction;
    vm_compute in Hr; injection Hr as <-;
    do 23 (destruct temp_idx as [|temp_idx];
           [ simpl in Ht, Hv; injection Ht as <-;
             first [ discriminate Hv
                   | injection Hv as <-; apply In_by_evaluation;
                     vm_compute; reflexivity ] | ]);
    simpl in Ht; destruct temp_idx; discriminate Ht.
Qed.

Lemma present_values_range :
  forallb (fun z => (27 <=? z)%Z && (z <=? 173)%Z) present_values = true.
Proof. vm_compute. reflexivity. Qed.

Lemma sample_tessellation_ok :
  tessellates (map inj present_points) sample_tessellation.
Proof. apply tessellates_Zb_sound. vm_compute. reflexivity. Qed.

(** The query of the specification's example lies outside the hull: every
    sample is on or below the line through (20, 1e5) and (450, 4e5). *)
Lemma example_outside_hull :
  ~ in_hull (map inj present_points) (20, 400000).
Proof.
  intros H.
  apply (hull_below_line present_points (-300000) 430 37000000) in H;
    [simpl in H; lra|].
  vm_compute. reflexivity.
Qed.

Lemma interpolate_within_range (t h x : xreal) :
  interpolate_stress (griddata_linear delaunay) t h = Return (Some x) ->
  exists v, x = XR v /\ 27 <= v <= 173.
Proof.
  rewrite interpolate_stress_12x1mf.
  destruct (griddata_linear _ _ _ _) as [w|e] eqn:G; [|discriminate].
  change (num_isnan w) with (xisnan w).
  destruct (xisnan w) eqn:N; [discriminate|].
  intros H. injection H as <-.
  apply (griddata_linear_bounds present_points present_values 27 173 t h
           present_values_range G N).
Qed.

End ExactLookup.

(** ** The allowable-stress lookup *)

Section StressTable.
Import Exact.
Local Open Scope R_scope.

(** C1 -- The lookup answers "undeterminable" ([None]) and never a value:
    for a table without any present cell; whenever the interpolation raises
    (the lookup over the 12Kh1MF table itself never raises); and, the
    interpolation being linear over a triangulation of the samples, for every
    query outside the convex hull of the present (temperature, duration)
    points, such as (20 deg C, 4e5 h). *)
Theorem undeterminable_outside_the_samples :
  (forall (F : Type) (AF : Arith F)
          (griddata : list (F * F) -> list F -> F * F -> py F)
          (tb : table) (pv : cells) (t h : F),
     collect tb = Return pv -> fst pv = [] ->
     interpolate_stress_on griddata tb t h = Return None) /\
  (forall (F : Type) (AF : Arith F)
          (griddata : list (F * F) -> list F -> F * F -> py F)
          (tb : table) (pv : cells) (t h : F) (e : exn),
     collect tb = Return pv ->
     griddata (map to_point (fst pv)) (map num_of_Z (snd pv)) (t, h) = Raise e ->
     interpolate_stress_on griddata tb t h = Return None) /\
  (forall (F : Type) (AF : Arith F)
          (griddata : list (F * F) -> list F -> F * F -> py F) (t h : F),
     exists o, interpolate_stress griddata t h = Return o) /\
  (forall (delaunay : list point -> option (list simplex))
          (tb : table) (pv : cells) (t h : R),
     collect tb = Return pv ->
     ~ in_hull (map inj (fst pv)) (t, h) ->
     interpolate_stress_on (griddata_linear delaunay) tb (XR t) (XR h)
       = Return None) /\
  (forall (delaunay : list point -> option (list simplex)),
     ~ in_hull (map inj present_points) (20, 400000) /\
     interpolate_stress (griddata_linear delaunay) (XR 20) (XR 400000)
       = Return None).
Proof.
  split; [|split; [|split; [|split]]].
  - intros F AF griddata tb pv t h Hc He.
    now apply (interpolate_no_points griddata tb t h Hc).
  - intros F AF griddata tb pv t h e Hc Hg.
    destruct (fst pv) as [|q l] eqn:E.
    + now apply (interpolate_no_points griddata tb t h Hc).
    + rewrite (interpolate_some_points griddata tb t h Hc)
        by (rewrite E; discriminate).
      rewrite E, Hg. reflexivity.
  - intros F AF griddata t h. apply interpolate_stress_returns.
  - intros delaunay tb pv t h. apply outside_hull_undeterminable.
  - intros delaunay. split; [exact example_outside_hull|].
    apply (@outside_hull_undeterminable delaunay table_12x1mf present_cells
             20 400000 collect_12x1mf example_outside_hull).
Qed.

Lemma undeterminable_outside_the_samples_witness :
  interpolate_stress (griddata_linear sample_delaunay) (XR 20) (XR 400000)
    = Return None.
Proof.
  exact (proj2 (proj2 (proj2 (proj2 (proj2
           undeterminable_outside_the_samples))) sample_delaunay)).
Defined.

(** C2 -- At every (temperature, duration) pair that is a cell of the
    12Kh1MF table with a present value, the lookup returns exactly that
    value, the interpolation being linear over a triangulation of the
    present cells. *)
Theorem exact_at_tabulated_cells :
  forall (delaunay : list point -> option (list simplex))
         (sxs : list simplex) (temp hours v : Z),
    delaunay (map inj present_points) = Some sxs ->
    tessellates (map inj present_points) sxs ->
    tabulated table_12x1mf temp hours v ->
    interpolate_stress (griddata_linear delaunay)
                       (num_of_Z temp) (num_of_Z hours)
      = Return (Some (num_of_Z v)).
Proof.
  intros delaunay sxs temp hours v Hd Ht Hc.
  destruct (tabulated_present Hc) as (m & Hp & Hv).
  rewrite interpolate_stress_12x1mf.
  change (num_of_Z temp, num_of_Z hours) with (to_point (temp, hours)).
  rewrite (interpolate_at_sample delaunay present_points present_values m
             present_cells_aligned Hd Ht Hp Hv).
  reflexivity.
Qed.

Lemma cell_480_10000 : tabulated table_12x1mf 480 10000 133.
Proof.
  exists 9%nat. eexists. split; [reflexivity|].
  split; [simpl; tauto|]. split; [vm_compute; reflexivity|]. reflexivity.
Qed.

Lemma exact_at_tabulated_cells_witness :
  interpolate_stress (griddata_linear sample_delaunay) (XR 480) (XR 10000)
    = Return (Some (XR 133)).
Proof.
  exact (@exact_at_tabulated_cells sample_delaunay sample_tessellation
           480 10000 133 eq_refl sample_tessellation_ok cell_480_10000).
Defined.

(** C10 -- Every value the lookup returns lies between the least (27 MPa)
    and the greatest (173 MPa) present value of the table. *)
Theorem interpolated_stress_within_table_range :
  forall (delaunay : list point -> option (list simplex)) (t h x : xreal),
    interpolate_stress (griddata_linear delaunay) t h = Return (Some x) ->
    exists v,
      x = XR v /\
      IZR (list_min present_values) <= v <= IZR (list_max present_values) /\
      list_min present_values = 27%Z /\ list_max present_values = 173%Z.
Proof.
  intros delaunay t h x H.
  destruct (@interpolate_within_range delaunay t h x H) as [v [-> Hv]].
  exists v. split; [reflexivity|].
  change (list_min present_values) with 27%Z.
  change (list_max present_values) with 173%Z.
  repeat split; lra.
Qed.

Lemma lookup_at_480_10000 :
  interpolate_stress (griddata_linear sample_delaunay) (XR 480) (XR 10000)
    = Return (Some (XR 133)).
Proof.
  rewrite interpolate_stress_12x1mf.
  change (XR 480, XR 10000) with (to_point (480, 10000)%Z).
  rewrite (interpolate_at_sample sample_delaunay present_points
             present_values 15 present_cells_aligned eq_refl
             sample_tessellation_ok eq_refl eq_refl).
  reflexivity.
Qed.

Lemma interpolated_stress_within_table_range_witness :
  exists v,
    XR 133 = XR v /\
    IZR (list_min present_values) <= v <= IZR (list_max present_values) /\
    list_min present_values = 27%Z /\ list_max present_values = 173%Z.
Proof.
  exact (@interpolated_stress_within_table_range sample_delaunay
           (XR 480) (XR 10000) (XR 133) lookup_at_480_10000).
Defined.

End StressTable.


(** * Further properties of the code *)

(** ** The loop that collects the present cells *)

Section FoldM.
Context {A B : Type}.
Variable f : B -> A -> py B.

Lemma foldM_invariant (P : B -> Prop) (l : list A) (b b' : B) :
  (forall a b1 b2, In a l -> P b1 -> f b1 a = Return b2 -> P b2) ->
  P b -> foldM f l b = Return b' -> P b'.
Proof.
  revert b. induction l as [|a l IH]; intros b Hstep Hb H; simpl in H.
  - now injection H as <-.
  - destruct (f b a) as [b1|e] eqn:E; [|discriminate]. simpl in H.
    apply (IH b1); auto.
    + intros a0 b2 b3 Hin. apply Hstep. now right.
    + apply (Hstep a b b1); auto. now left.
Qed.

Lemma foldM_collects {X : Type} (g : B -> list X) (Q : A -> X -> Prop)
    (Inv : B -> Prop) :
  (forall a b1 b2, Inv b1 -> f b1 a = Return b2 ->
     Inv b2 /\ forall x, In x (g b2) <-> In x (g b1) \/ Q a x) ->
  forall l b b', Inv b -> foldM f l b = Return b' ->
    Inv b' /\ forall x, In x (g b') <-> In x (g b) \/ exists a, In a l /\ Q a x.
Proof.
  intros Hstep l. induction l as [|a l IH]; intros b b' Hb H; simpl in H.
  - injection H as <-. split; [exact Hb|]. intros x. split; [now left|].
    intros [H|[a [[] _]]]. exact H.
  - destruct (f b a) as [b1|e] eqn:E; [|discriminate]. simpl in H.
    destruct (Hstep a b b1 Hb E) as [Hb1 H1].
    destruct (IH b1 b' Hb1 H) as [Hb' H2].
    split; [exact Hb'|]. intros x. rewrite H2, H1. split.
    + intros [[Hx|Hq]|[a0 [Hin Hq]]]; eauto.
      * right. exists a. split; [now left|exact Hq].
      * right. exists a0. split; [now right|exact Hq].
    + intros [Hx|[a0 [[->|Hin] Hq]]]; eauto.
Qed.

Lemma foldM_returns (l : list A) :
  (forall a, In a l -> forall b, exists b', f b a = Return b') ->
  forall b, exists b', foldM f l b = Return b'.
Proof.
  induction l as [|a l IH]; intros Hall b; simpl; [eauto|].
  destruct (Hall a (or_introl eq_refl) b) as [b1 ->]. simpl.
  apply IH. intros a0 Hin. apply Hall. now right.
Qed.

Lemma foldM_steps_return (l : list A) (b b' : B) :
  foldM f l b = Return b' ->
  forall a, In a l -> exists b1 b2, f b1 a = Return b2.
Proof.
  revert b. induction l as [|a l IH]; intros b H a0 Hin; [contradiction|].
  simpl in H. destruct (f b a) as [b1|e] eqn:E; [|discriminate]. simpl in H.
  destruct Hin as [->|Hin]; eauto.
Qed.

Lemma foldM_raises (l : list A) (b : B) (e : exn) :
  foldM f l b = Raise e -> exists a b1, In a l /\ f b1 a = Raise e.
Proof.
  revert b. induction l as [|a l IH]; intros b H; [discriminate|].
  simpl in H. destruct (f b a) as [b1|e1] eqn:E; simpl in H.
  - destruct (IH b1 H) as (a0 & b2 & Hin & Hr). exists a0, b2.
    split; [now right|exact Hr].
  - injection H as <-. exists a, b. split; [now left|exact E].
Qed.

End FoldM.

Section Collect.
Variable tb : table.

Lemma getitem_raises {V : Type} (d : list (Z * V)) (k : Z) (e : exn) :
  getitem d k = Raise e -> e = KeyError.
Proof.
  unfold getitem. destruct (find _ d); [discriminate|]. now intros [= <-].
Qed.

Lemma scan_hours_returns (idx : nat) (temp : Z) (acc : cells) (hours : Z)
    (acc' : cells) :
  scan_hours tb idx temp acc hours = Return acc' <->
  exists row cell,
    getitem (tb_stress tb) hours = Return row /\
    nth_error row idx = Some cell /\
    acc' = match cell with
           | Some v => (fst acc ++ [(temp, hours)], snd acc ++ [v])
           | None => acc
           end.
Proof.
  unfold scan_hours, bind, index. split.
  - destruct (getitem (tb_stress tb) hours) as [row|e]; [|discriminate].
    destruct (nth_error row idx) as [cell|] eqn:E; [|discriminate].
    intros [= <-]. exists row, cell. auto.
  - intros (row & cell & -> & -> & ->). reflexivity.
Qed.

Lemma scan_hours_raises (idx : nat) (temp : Z) (acc : cells) (hours : Z)
    (e : exn) :
  scan_hours tb idx temp acc hours = Raise e -> e = KeyError \/ e = IndexError.
Proof.
  unfold scan_hours, bind, index.
  destruct (getitem (tb_stress tb) hours) as [row|e0] eqn:G.
  - destruct (nth_error row idx); [discriminate|]. intros [= <-]. now right.
  - intros [= <-]. left. now apply (@getitem_raises _ _ _ _ G).
Qed.

Lemma combine_snoc {X Y : Type} (l : list X) (l' : list Y) (a : X) (b : Y) :
  List.length l = List.length l' ->
  combine (l ++ [a]) (l' ++ [b]) = combine l l' ++ [(a, b)].
Proof.
  revert l'. induction l as [|x l IH]; intros [|y l'] H; try discriminate.
  - reflexivity.
  - simpl. f_equal. apply IH. now injection H.
Qed.

Lemma In_enumerate_from_inv {X : Type} (l : list X) (n m : nat) (a : X) :
  In (m, a) (enumerate_from n l) ->
  exists k, m = (n + k)%nat /\ nth_error l k = Some a.
Proof.
  revert n. induction l as [|x l IH]; intros n H; [contradiction|].
  destruct H as [H|H].
  - injection H as <- <-. exists 0%nat. split; [lia|reflexivity].
  - destruct (IH (S n) H) as (k & -> & Hk). exists (S k). split; [lia|exact Hk].
Qed.

Lemma In_enumerate {X : Type} (l : list X) (m : nat) (a : X) :
  In (m, a) (enumerate l) <-> nth_error l m = Some a.
Proof.
  split.
  - intros H. destruct (@In_enumerate_from_inv X l 0 m a H) as (k & -> & Hk).
    exact Hk.
  - intros H. apply (In_enumerate_from l 0 m H).
Qed.

(** The cell at position [idx] of the row of [hours] holds [v]. *)
Let holds (idx : nat) (hours v : Z) : Prop :=
  exists row,
    getitem (tb_stress tb) hours = Return row /\
    nth_error row idx = Some (Some v).

Let paired (acc : cells) : list (Z * Z * Z) := combine (fst acc) (snd acc).

Let aligned (acc : cells) : Prop :=
  List.length (fst acc) = List.length (snd acc).

Lemma scan_hours_step (idx : nat) (temp : Z) (hours : Z) (acc acc' : cells) :
  aligned acc ->
  scan_hours tb idx temp acc hours = Return acc' ->
  aligned acc' /\
  forall x, In x (paired acc') <->
            In x (paired acc) \/
            exists v, x = (temp, hours, v) /\ holds idx hours v.
Proof.
  intros Ha H. apply scan_hours_returns in H as (row & cell & Hg & Hn & ->).
  destruct cell as [v|].
  - split.
    + unfold aligned. simpl. rewrite !length_app. simpl. now rewrite Ha.
    + intros x. unfold paired. simpl. rewrite (@combine_snoc _ _ (fst acc) (snd acc) (temp, hours) v Ha).
      rewrite in_app_iff. simpl. split.
      * intros [H|[<-|[]]]; [now left|]. right. exists v. split; [reflexivity|].
        now exists row.
      * intros [H|(v' & -> & row' & Hg' & Hn')]; [now left|]. right. left.
        assert (row' = row) by congruence. subst row'.
        assert (v' = v) by congruence. now subst v'.
  - split; [exact Ha|]. intros x. split; [now left|].
    intros [H|(v' & -> & row' & Hg' & Hn')]; [exact H|].
    assert (row' = row) by congruence. subst row'. congruence.
Qed.

Lemma scan_temperature_step (it : nat * Z) (acc acc' : cells) :
  aligned acc ->
  scan_temperature tb acc it = Return acc' ->
  aligned acc' /\
  forall x, In x (paired acc') <->
            In x (paired acc) \/
            exists hours, In hours hours_axis /\
              exists v, x = (snd it, hours, v) /\ holds (fst it) hours v.
Proof.
  intros Ha H. unfold scan_temperature in H.
  apply (foldM_collects (scan_hours tb (fst it) (snd it)) paired
           (fun hours x => exists v, x = (snd it, hours, v)
                                     /\ holds (fst it) hours v)
           aligned) with (b := acc); auto.
  intros hours b1 b2. apply scan_hours_step.
Qed.

Lemma collect_step (pv : cells) :
  collect tb = Return pv ->
  aligned pv /\
  forall x, In x (paired pv) <->
            exists it, In it (enumerate (tb_temperatures tb)) /\
              exists hours, In hours hours_axis /\
                exists v, x = (snd it, hours, v) /\ holds (fst it) hours v.
Proof.
  intros H. unfold collect in H.
  destruct (@foldM_collects _ _ (scan_temperature tb) _ paired
              (fun it x => exists hours, In hours hours_axis /\
                 exists v, x = (snd it, hours, v) /\ holds (fst it) hours v)
              aligned
              (fun it b1 b2 Hb => @scan_temperature_step it b1 b2 Hb)
              (enumerate (tb_temperatures tb)) ([], []) pv eq_refl H)
    as [Ha Hx].
  split; [exact Ha|]. intros x. rewrite Hx. simpl. tauto.
Qed.

End Collect.

Section CollectProperties.

(** X1 -- Whenever the loop of [interpolate_stress] completes, the lists
    [points] and [values] it hands to the interpolation have the same
    length. *)
Theorem collect_aligned :
  forall (tb : table) (pv : cells),
    collect tb = Return pv ->
    List.length (fst pv) = List.length (snd pv).
Proof.
  intros tb pv H. exact (proj1 (collect_step tb H)).
Qed.

Lemma collect_aligned_witness :
  List.length (fst present_cells) = List.length (snd present_cells).
Proof.
  exact (@collect_aligned table_12x1mf present_cells collect_12x1mf).
Defined.

(** X2 -- Whenever the loop completes, the pairs (point, value) it built are
    exactly the cells of the table that hold a value: a point
    [(temp, hours)] is paired with [v] if and only if [temp] is at some
    position of the temperature list, [hours] is one of the five durations,
    and the row of [hours] holds [v] at that position. *)
Theorem collect_is_the_present_cells :
  forall (tb : table) (pv : cells),
    collect tb = Return pv ->
    forall temp hours v,
      In (temp, hours, v) (combine (fst pv) (snd pv)) <->
      tabulated tb temp hours v.
Proof.
  intros tb pv H temp hours v.
  destruct (collect_step tb H) as [_ Hx]. cbv zeta in Hx. rewrite Hx.
  unfold tabulated. split.
  - intros ([idx t] & Hin & hours' & Hh & v' & E & row & Hg & Hn).
    simpl in E. injection E as -> -> ->. simpl in Hg, Hn.
    apply In_enumerate in Hin. exists idx, row. auto.
  - intros (idx & row & Ht & Hh & Hg & Hn).
    exists (idx, temp). split; [now apply In_enumerate|].
    exists hours. split; [exact Hh|]. exists v. split; [reflexivity|].
    exists row. auto.
Qed.

Lemma collect_is_the_present_cells_witness :
  In (480, 10000, 133)%Z
     (combine (fst present_cells) (snd present_cells)) <->
  tabulated table_12x1mf 480 10000 133.
Proof.
  exact (@collect_is_the_present_cells table_12x1mf present_cells
           collect_12x1mf 480%Z 10000%Z 133%Z).
Defined.

Lemma collect_returns_iff (tb : table) :
  (exists pv, collect tb = Return pv) <-> well_formed tb.
Proof.
  unfold well_formed. split.
  - intros [pv H] idx temp hours Ht Hh.
    destruct (foldM_steps_return _ _ _ H (idx, temp))
      as (b1 & b2 & Hs); [now apply In_enumerate|].
    destruct (foldM_steps_return _ _ _ Hs hours Hh) as (b3 & b4 & Hs').
    apply scan_hours_returns in Hs' as (row & cell & Hg & Hn & _).
    now exists row, cell.
  - intros Hwf. apply foldM_returns. intros [idx temp] Hin b.
    apply In_enumerate in Hin. unfold scan_temperature.
    apply foldM_returns. intros hours Hh b0.
    destruct (Hwf idx temp hours Hin Hh) as (row & cell & Hg & Hn).
    eexists. apply scan_hours_returns. exists row, cell. eauto.
Qed.

Lemma collect_raises (tb : table) (e : exn) :
  collect tb = Raise e -> e = KeyError \/ e = IndexError.
Proof.
  intros H. apply foldM_raises in H as ([idx temp] & b1 & _ & H).
  apply foldM_raises in H as (hours & b2 & _ & H).
  now apply scan_hours_raises in H.
Qed.

(** X3 -- The [try] of [interpolate_stress] covers the library call only.
    Over a table the loop can scan ([well_formed]: at every position of the
    temperature list each of the five durations is a key of the dictionary
    and its row reaches that position) the function returns, whatever the
    library does; over any other table it raises [KeyError] or
    [IndexError], and nothing else, whatever the library does. *)
Theorem interpolate_stress_raises_iff_malformed :
  forall (F : Type) (AF : Arith F)
         (griddata : list (F * F) -> list F -> F * F -> py F)
         (tb : table) (t h : F),
    (well_formed tb <->
     exists o, interpolate_stress_on griddata tb t h = Return o) /\
    (forall e, interpolate_stress_on griddata tb t h = Raise e ->
               (e = KeyError \/ e = IndexError) /\ ~ well_formed tb).
Proof.
  intros F AF griddata tb t h. split; [split|].
  - intros Hwf. apply collect_returns_iff in Hwf as [pv Hc].
    destruct (fst pv) as [|q l] eqn:E.
    + exists None. now apply (interpolate_no_points griddata tb t h Hc).
    + eexists. apply (interpolate_some_points griddata tb t h Hc).
      rewrite E. discriminate.
  - intros [o H]. apply collect_returns_iff.
    unfold interpolate_stress_on, bind in H.
    destruct (collect tb) as [pv|e]; [eauto|discriminate].
  - intros e H. unfold interpolate_stress_on, bind in H.
    destruct (collect tb) as [pv|e0] eqn:Hc.
    + destruct (fst pv); [discriminate|]. unfold try_except in H.
      destruct (griddata _ _ _); discriminate.
    + injection H as <-. split; [now apply (collect_raises tb)|].
      intros Hwf. apply collect_returns_iff in Hwf as [pv Hpv]. congruence.
Qed.

End CollectProperties.

Section RunProperties.
Import Binary64.
Local Open Scope num_scope.

(** X4 -- The only exception that can escape the button handler is the
    [ZeroDivisionError] of step 3: it escapes only after the lookup has
    returned an allowable stress [sa], and exactly because
    [2 * sa * 1.0 + p == 0]. *)
Theorem only_zero_division_escapes :
  forall (F : Type) (AF : Arith F)
         (griddata : list (F * F) -> list F -> F * F -> py F)
         (i : Input.t F) (e : exn),
    run griddata i = Uncaught e ->
    e = ZeroDivisionError /\
    exists sa : F,
      interpolate_stress griddata (Input.T i) (num_of_Z (total_hours i))
        = Return (Some sa) /\
      (num_of_Z 2 * sa * num_of_Q 1.0 + Input.p i == num_of_Z 0) = true.
Proof.
  intros F AF griddata i e H. unfold run in H.
  destruct (interpolate_stress_returns griddata (Input.T i)
              (num_of_Z (total_hours i))) as [o Ho].
  rewrite Ho in H. destruct o as [sa|]; [|discriminate H].
  destruct (compute_cases i sa) as [[Hz Hc]|[Hz [r Hc]]]; rewrite Hc in H.
  - injection H as <-. split; [reflexivity|]. exists sa.
    split; [exact Ho|exact Hz].
  - discriminate H.
Qed.

Lemma only_zero_division_escapes_witness :
  let g := griddata_returning (of_Z 0) in
  let i := set_p spec_example (of_Z 0) in
  ZeroDivisionError = ZeroDivisionError /\
  exists sa,
    interpolate_stress g (Input.T i) (num_of_Z (total_hours i))
      = Return (Some sa) /\
    (num_of_Z 2 * sa * num_of_Q 1.0 + Input.p i == num_of_Z 0) = true.
Proof.
  apply (@only_zero_division_escapes float arith
           (griddata_returning (of_Z 0)) (set_p spec_example (of_Z 0))).
  vm_compute. reflexivity.
Defined.

(** X5 -- In every displayed result the allowable stress is what the library
    answered for the query [(T, operating_hours + planned_hours)] over the
    present cells of the table, and it is not NaN. *)
Theorem displayed_allowable_stress :
  forall (F : Type) (AF : Arith F)
         (griddata : list (F * F) -> list F -> F * F -> py F)
         (i : Input.t F) (r : Result.t F),
    run griddata i = Displayed r ->
    griddata (map to_point present_points) (map num_of_Z present_values)
             (Input.T i, num_of_Z (total_hours i))
      = Return (Result.sigma_allowable r) /\
    num_isnan (Result.sigma_allowable r) = false.
Proof.
  intros F AF griddata i r H.
  destruct (run_displayed _ _ H) as [sa [Hi Hc]].
  destruct (compute_fields _ _ Hc) as (-> & _).
  rewrite interpolate_stress_12x1mf in Hi.
  destruct (griddata _ _ _) as [v|e]; [|discriminate Hi].
  destruct (num_isnan v) eqn:N; [discriminate Hi|].
  injection Hi as <-. split; [reflexivity|exact N].
Qed.

Lemma displayed_allowable_stress_witness :
  exists r,
    run (griddata_returning (of_Q 56.5)) spec_example = Displayed r /\
    griddata_returning (of_Q 56.5)
      (map to_point present_points) (map num_of_Z present_values)
      (Input.T spec_example, num_of_Z (total_hours spec_example))
      = Return (Result.sigma_allowable r) /\
    num_isnan (Result.sigma_allowable r) = false.
Proof.
  eexists. split; [vm_compute; reflexivity|].
  apply (@displayed_allowable_stress float arith
           (griddata_returning (of_Q 56.5)) spec_example).
  vm_compute. reflexivity.
Defined.

End RunProperties.

(** ** The summary table *)

Section StatusColumn.
Import Binary64.

Lemma leb_of_zero (x y : float) :
  PrimFloat.eqb x (of_Z 0) = true -> PrimFloat.leb (of_Z 0) y = true ->
  PrimFloat.leb x y = true.
Proof.
  intros Hx. apply eqb_zero_Prim2SF in Hx as [sg Hx].
  rewrite !leb_spec, Prim2SF_zero, Hx. unfold SFleb.
  destruct (Prim2SF y) as [sy|sy| |sy my ey]; destruct sg; simpl; auto.
Qed.

Lemma leb_nan_l (x y : float) :
  PrimFloat.is_nan x = true -> PrimFloat.leb x y = false.
Proof.
  intros Hx. apply is_nan_Prim2SF in Hx. rewrite leb_spec, Hx. reflexivity.
Qed.

Lemma leb_nan_r (x y : float) :
  PrimFloat.is_nan y = true -> PrimFloat.leb x y = false.
Proof.
  intros Hy. apply is_nan_Prim2SF in Hy. rewrite leb_spec, Hy. unfold SFleb.
  now destruct (Prim2SF x).
Qed.

Lemma eqb_nan_l (x y : float) :
  PrimFloat.is_nan x = true -> PrimFloat.eqb x y = false.
Proof.
  intros Hx. apply is_nan_Prim2SF in Hx. rewrite eqb_spec, Hx. reflexivity.
Qed.

Lemma one_leb_zero : PrimFloat.leb (of_Q 1.0) (of_Z 0) = false.
Proof. vm_compute. reflexivity. Qed.

(** X6 -- With no load on the joint the two verdicts of the summary table
    contradict each other: whenever the reduced stress [sigma] compares equal
    to zero and the allowable stress is not negative, the stress row reads
    "В норме" (within the limit) while the safety-factor row, fed by the
    fallback value 0 of step 8, reads "Недостаточный" (insufficient). *)
Theorem zero_sigma_contradictory_statuses :
  forall (griddata : list (float * float) -> list float -> float * float -> py float)
         (i : Input.t float) (r : Result.t float),
    run griddata i = Displayed r ->
    PrimFloat.eqb (Result.sigma r) (of_Z 0) = true ->
    PrimFloat.leb (of_Z 0) (Result.sigma_allowable r) = true ->
    Result.strength_ok r = true /\
    status_column r = ["-"; "В норме"; "-"; "Недостаточный"]%string.
Proof.
  intros griddata i r H Hz Hsa.
  destruct (run_displayed _ _ H) as [sa [_ Hc]].
  destruct (compute_fields _ _ Hc)
    as (Ea & _ & _ & _ & _ & _ & _ & _ & _ & _ & Hsf & Hok).
  change (Result.safety_factor r =
          (if negb (PrimFloat.eqb (Result.sigma r) (of_Z 0))
           then (sa / Result.sigma r)%float else of_Z 0)) in Hsf.
  change (Result.strength_ok r = PrimFloat.leb (Result.sigma r) sa) in Hok.
  rewrite Hz in Hsf. simpl in Hsf. rewrite Ea in Hsa.
  assert (L : PrimFloat.leb (Result.sigma r) sa = true)
    by now apply leb_of_zero.
  split; [now rewrite Hok|].
  unfold status_column.
  change (@num_leb float arith) with PrimFloat.leb.
  change (@num_of_Q float arith) with of_Q.
  rewrite Ea, L, Hsf, one_leb_zero. reflexivity.
Qed.

Lemma zero_sigma_contradictory_statuses_witness :
  exists r,
    run (griddata_returning (of_Q 56.5)) (set_p spec_example (of_Q 0.0))
      = Displayed r /\
    Result.strength_ok r = true /\
    status_column r = ["-"; "В норме"; "-"; "Недостаточный"]%string.
Proof.
  eexists. split; [vm_compute; reflexivity|].
  apply (@zero_sigma_contradictory_statuses (griddata_returning (of_Q 56.5))
           (set_p spec_example (of_Q 0.0)));
    vm_compute; reflexivity.
Defined.

(** X7 -- An undefined reduced stress is reported as a failure on both rows
    of the summary table: whenever [sigma] is NaN the strength condition is
    shown as not met, the stress row reads "Превышено" (exceeded) and the
    safety-factor row "Недостаточный" (insufficient). *)
Theorem nan_sigma_fails_both_statuses :
  forall (griddata : list (float * float) -> list float -> float * float -> py float)
         (i : Input.t float) (r : Result.t float),
    run griddata i = Displayed r ->
    PrimFloat.is_nan (Result.sigma r) = true ->
    Result.strength_ok r = false /\
    PrimFloat.is_nan (Result.safety_factor r) = true /\
    status_column r = ["-"; "Превышено"; "-"; "Недостаточный"]%string.
Proof.
  intros griddata i r H Hn.
  destruct (run_displayed _ _ H) as [sa [_ Hc]].
  destruct (compute_fields _ _ Hc)
    as (Ea & _ & _ & _ & _ & _ & _ & _ & _ & _ & Hsf & Hok).
  change (Result.safety_factor r =
          (if negb (PrimFloat.eqb (Result.sigma r) (of_Z 0))
           then (sa / Result.sigma r)%float else of_Z 0)) in Hsf.
  change (Result.strength_ok r = PrimFloat.leb (Result.sigma r) sa) in Hok.
  rewrite (eqb_nan_l _ (of_Z 0) Hn) in Hsf. simpl in Hsf.
  assert (N : PrimFloat.is_nan (Result.safety_factor r) = true)
    by (rewrite Hsf; now apply div_nan_r).
  split; [rewrite Hok; now apply leb_nan_l|]. split; [exact N|].
  unfold status_column.
  change (@num_leb float arith) with PrimFloat.leb.
  rewrite (leb_nan_l _ (Result.sigma_allowable r) Hn).
  rewrite (leb_nan_r (@num_of_Q float arith 1.0) _ N). reflexivity.
Qed.

Lemma nan_sigma_fails_both_statuses_witness :
  exists r,
    run (griddata_returning (of_Q 56.5)) (set_c spec_example (of_Q 30.0))
      = Displayed r /\
    Result.strength_ok r = false /\
    PrimFloat.is_nan (Result.safety_factor r) = true /\
    status_column r = ["-"; "Превышено"; "-"; "Недостаточный"]%string.
Proof.
  eexists. split; [vm_compute; reflexivity|].
  apply (@nan_sigma_fails_both_statuses (griddata_returning (of_Q 56.5))
           (set_c spec_example (of_Q 30.0)));
    vm_compute; reflexivity.
Defined.

End StatusColumn.
